(** * orgmunge: the document classes of [classes.py]

    A shallow embedding of the classes [Cookie], [Priority], [Headline],
    [Scheduling], [TimeStamp], [Drawer], [Heading] and [Clocking], and the
    properties of the specification checked against them.

    Conventions.
    - A Python [str] is a [string]; a character is read as a code point
      below 256.  A Python [int] is a [Z]; [//] and [%] on ints are [Z.div]
      and [Z.modulo], which round and sign the way Python does.
    - A method that can raise returns a [result]; a method that mutates its
      object takes the object's state and returns the outcome together with
      the state it leaves behind, so that what an exception leaves half
      done stays visible.
    - Objects that are shared and mutated in place ([TimeStamp]s held by a
      [Scheduling], [Heading]s linked by parent, children and sibling) live
      in a store indexed by references. *)

From Stdlib Require Import ZArith List String Ascii Bool Lia.
From Stdlib Require Import QArith Qround DecimalString.
From Stdlib Require Import DecimalFacts DecimalPos DecimalZ.
Import ListNotations.

Open Scope string_scope.
Open Scope Z_scope.

(** ** Python runtime *)

Module Py.

Inductive exn :=
| ValueError
| TypeError
| AttributeError
| UnboundLocalError
| IndexError
| RecursionError.

Inductive result (A : Type) :=
| Ok (a : A)
| Raise (e : exn).
Arguments Ok {A} a.
Arguments Raise {A} e.

Definition bind {A B} (r : result A) (k : A -> result B) : result B :=
  match r with
  | Ok a => k a
  | Raise e => Raise e
  end.

(** A mutating method: outcome and the state left behind. *)
Definition method (S A : Type) := S -> result A * S.

Definition mret {S A} (a : A) : method S A := fun s => (Ok a, s).
Definition mraise {S A} (e : exn) : method S A := fun s => (Raise e, s).
Definition mbind {S A B} (m : method S A) (k : A -> method S B) : method S B :=
  fun s => match m s with
           | (Ok a, s') => k a s'
           | (Raise e, s') => (Raise e, s')
           end.
Definition mget {S} : method S S := fun s => (Ok s, s).
Definition mput {S} (s' : S) : method S unit := fun _ => (Ok tt, s').
Definition mlift {S A} (r : result A) : method S A := fun s => (r, s).

(** [for x in xs: body], where the body may raise. *)
Fixpoint for_each {S X} (xs : list X) (body : X -> method S unit)
  : method S unit :=
  match xs with
  | [] => mret tt
  | x :: xs' => mbind (body x) (fun _ => for_each xs' body)
  end.

(** [[f(x) for x in xs]], where [f] may raise and change the state. *)
Fixpoint mmap {S X A} (f : X -> method S A) (xs : list X)
  : method S (list A) :=
  match xs with
  | [] => mret []
  | x :: xs' =>
      mbind (f x) (fun a => mbind (mmap f xs') (fun l => mret (a :: l)))
  end.

(** A loop whose body may [return]: each round either goes on to the next
    element or leaves the function with a value. *)
Inductive flow (A : Type) :=
| Next
| Return (a : A).
Arguments Next {A}.
Arguments Return {A} a.

Fixpoint for_return {S X A} (xs : list X) (body : X -> method S (flow A))
  : method S (flow A) :=
  match xs with
  | [] => mret Next
  | x :: xs' =>
      mbind (body x) (fun f =>
        match f with
        | Next => for_return xs' body
        | Return a => mret (Return a)
        end)
  end.

(** The values a setter may be handed, as far as [isinstance] tells them
    apart.  An int is an [int] proper: a [bool], which [isinstance] takes
    for an int as well and which is written [True] or [False], is not
    among the values here. *)
Inductive value :=
| VNone
| VInt (z : Z)
| VStr (s : string).

Definition nl : string := String "010"%char "".

Definition is_digit (c : ascii) : bool :=
  let n := nat_of_ascii c in ((48 <=? n) && (n <=? 57))%nat.

(** [str.isspace] on the code points below 256. *)
Definition isspace (c : ascii) : bool :=
  let n := nat_of_ascii c in
  (((9 <=? n) && (n <=? 13)) || ((28 <=? n) && (n <=? 32))
   || (n =? 133) || (n =? 160))%nat.

Fixpoint lstrip (s : string) : string :=
  match s with
  | String c s' => if isspace c then lstrip s' else s
  | EmptyString => EmptyString
  end.

Fixpoint rstrip (s : string) : string :=
  match s with
  | String c s' =>
      match rstrip s' with
      | EmptyString => if isspace c then EmptyString else String c EmptyString
      | r => String c r
      end
  | EmptyString => EmptyString
  end.

(** [s.strip()] *)
Definition strip (s : string) : string := rstrip (lstrip s).

(** [s.split(sep)] for a one-character separator. *)
Fixpoint split (sep : ascii) (s : string) : list string :=
  match s with
  | EmptyString => [EmptyString]
  | String c s' =>
      if Ascii.eqb c sep then EmptyString :: split sep s'
      else match split sep s' with
           | w :: ws => String c w :: ws
           | [] => [String c EmptyString]
           end
  end.

(** [c * n] for a one-character string [c]. *)
Fixpoint repeat_chr (c : ascii) (n : nat) : string :=
  match n with
  | O => EmptyString
  | S n' => String c (repeat_chr c n')
  end.

(** The decimal text of an int, as [str(z)] and an f-string write it. *)
Definition str_of_int (z : Z) : string := NilZero.string_of_int (Z.to_int z).

(** The limit of the interpreter on conversions between [int] and [str]
    ([sys.get_int_max_str_digits()], 4300 unless it is reconfigured): both
    directions raise [ValueError] for a number of more digits. *)
Definition int_max_str_digits : Z := 4300.

(** [str(z)], and [{z}] in an f-string, for an int of any size. *)
Definition str_int (z : Z) : result string :=
  if int_max_str_digits <? Z.of_nat (String.length (str_of_int (Z.abs z)))
  then Raise ValueError
  else Ok (str_of_int z).

(** [f'{z:02d}'] and [f'{z:04d}']: zero fill up to the width, which counts
    the sign. *)
Definition zfill (width : nat) (z : Z) : string :=
  let digits := NilZero.string_of_uint (N.to_uint (Z.to_N (Z.abs z))) in
  let sign := if z <? 0 then "-" else "" in
  sign ++ repeat_chr "0" (width - String.length sign - String.length digits)
       ++ digits.

Fixpoint int_digits (s : string) (acc : Z) (after_digit : bool) : option Z :=
  match s with
  | EmptyString => if after_digit then Some acc else None
  | String c s' =>
      if is_digit c
      then int_digits s' (10 * acc + (Z.of_nat (nat_of_ascii c) - 48)) true
      else if Ascii.eqb c "_"
           then if after_digit then int_digits s' acc false else None
           else None
  end.

(** The white space that [int] skips around a number: the ASCII white
    space and, above it, the code points 133 and 160.  Unlike [str.strip]
    it does not skip the separators 28 to 31. *)
Definition int_space (c : ascii) : bool :=
  let n := nat_of_ascii c in
  (((9 <=? n) && (n <=? 13)) || (n =? 32) || (n =? 133) || (n =? 160))%nat.

Fixpoint int_lstrip (s : string) : string :=
  match s with
  | String c s' => if int_space c then int_lstrip s' else s
  | EmptyString => EmptyString
  end.

Fixpoint int_rstrip (s : string) : string :=
  match s with
  | String c s' =>
      match int_rstrip s' with
      | EmptyString =>
          if int_space c then EmptyString else String c EmptyString
      | r => String c r
      end
  | EmptyString => EmptyString
  end.

(** The digits of a text, which the limit counts. *)
Fixpoint count_digits (s : string) : nat :=
  match s with
  | String c s' => ((if is_digit c then 1 else 0) + count_digits s')%nat
  | EmptyString => O
  end.

(** [int(s)] for a string: surrounding white space, a sign, decimal digits
    with single underscores between them, and no more digits than the
    limit; anything else is a [ValueError]. *)
Definition int_of_str (s : string) : result Z :=
  let unsigned t :=
    match int_digits t 0 false with
    | Some z =>
        if int_max_str_digits <? Z.of_nat (count_digits t)
        then Raise ValueError
        else Ok z
    | None => Raise ValueError
    end in
  match int_rstrip (int_lstrip s) with
  | String "-" t => bind (unsigned t) (fun z => Ok (- z))
  | String "+" t => unsigned t
  | t => unsigned t
  end.

(** [x in l] and [l.index(x)] on a list of strings. *)
Definition str_in (x : string) (l : list string) : bool :=
  existsb (String.eqb x) l.

Fixpoint str_index (x : string) (l : list string) : result Z :=
  match l with
  | [] => Raise ValueError
  | y :: l' => if String.eqb y x then Ok 0
               else bind (str_index x l') (fun i => Ok (i + 1))
  end.

(** [l[i]]: a negative index counts from the end, an index out of range
    raises [IndexError]. *)
Definition getitem {A} (l : list A) (i : Z) : result A :=
  let n := Z.of_nat (List.length l) in
  let j := if i <? 0 then i + n else i in
  if (j <? 0) || (n <=? j) then Raise IndexError
  else match nth_error l (Z.to_nat j) with
       | Some a => Ok a
       | None => Raise IndexError
       end.

End Py.

Export Py.

Notation "x <- m ;; k" := (Py.bind m (fun x => k))
  (at level 61, m at next level, right associativity).

Notation "x <-- m ;; k" := (Py.mbind m (fun x => k))
  (at level 61, m at next level, right associativity).

(** ** The part of [re] that the classes use

    Patterns are built from single-character classes, greedy [*] and [+]
    over such a class, concatenation and numbered groups.  Matching
    backtracks the way [re] does: a greedy repetition takes as much as it
    can and gives characters back one at a time until the rest of the
    pattern matches. *)

Module Re.

Inductive cclass :=
| CChr (c : ascii)   (* a literal character *)
| CDot               (* [.]: anything but a newline *)
| CSpace             (* [\s] *)
| CIn (set : string). (* a bracketed set of characters *)

Definition accepts (cc : cclass) (c : ascii) : bool :=
  match cc with
  | CChr d => Ascii.eqb c d
  | CDot => negb (Ascii.eqb c "010")
  | CSpace => isspace c
  | CIn set => existsb (Ascii.eqb c) (list_ascii_of_string set)
  end.

Inductive regex :=
| One (cc : cclass)
| Opt (cc : cclass)
| Star (cc : cclass)
| Plus (cc : cclass)
| Cat (r1 r2 : regex)
| Group (i : nat) (r : regex).

Definition groups := list (nat * string).

Fixpoint star {R} (cc : cclass) (s : string) (k : string -> option R)
  : option R :=
  match s with
  | String c s' =>
      if accepts cc c
      then match star cc s' k with
           | Some r => Some r
           | None => k s
           end
      else k s
  | EmptyString => k s
  end.

Fixpoint run (r : regex) (s : string) (g : groups)
    (k : string -> groups -> option groups) : option groups :=
  match r with
  | One cc =>
      match s with
      | String c s' => if accepts cc c then k s' g else None
      | EmptyString => None
      end
  | Opt cc =>
      match s with
      | String c s' =>
          if accepts cc c
          then match k s' g with
               | Some r => Some r
               | None => k s g
               end
          else k s g
      | EmptyString => k s g
      end
  | Star cc => star cc s (fun rest => k rest g)
  | Plus cc =>
      match s with
      | String c s' =>
          if accepts cc c then star cc s' (fun rest => k rest g) else None
      | EmptyString => None
      end
  | Cat r1 r2 => run r1 s g (fun rest g' => run r2 rest g' k)
  | Group i r' =>
      run r' s g (fun rest g' =>
        k rest ((i, substring 0 (String.length s - String.length rest) s) :: g'))
  end.

(** [re.search(r, text)] for a pattern that starts with [^]: only the
    start of the text is tried. *)
Definition search_bol (r : regex) (text : string) : option groups :=
  run r text [] (fun _ g => Some g).

(** [re.search(r, text)]: the leftmost position at which [r] matches. *)
Fixpoint search (r : regex) (text : string) : option groups :=
  match run r text [] (fun _ g => Some g) with
  | Some g => Some g
  | None =>
      match text with
      | String _ text' => search r text'
      | EmptyString => None
      end
  end.

(** [match.group(i)] *)
Fixpoint group (g : groups) (i : nat) : string :=
  match g with
  | [] => EmptyString
  | (j, s) :: g' => if Nat.eqb i j then s else group g' i
  end.

Definition chr (c : ascii) : regex := One (CChr c).

End Re.

(** ** Cookie *)

Module Cookie.

Record t := mk {
  _cookie_type : option string;
  _m : Z;
  _n : Z
}.

(** The four patterns of [__init__]: a percent sign; a bracketed group of
    one or more characters before a percent sign; a slash; two bracketed
    groups of any characters around a slash. *)
Definition re_percent : Re.regex := Re.chr "%".
Definition re_percent_cookie : Re.regex :=
  Re.Cat (Re.chr "[") (Re.Cat (Re.Group 1 (Re.Plus Re.CDot))
         (Re.Cat (Re.chr "%") (Re.chr "]"))).
Definition re_slash : Re.regex := Re.chr "/".
Definition re_progress_cookie : Re.regex :=
  Re.Cat (Re.chr "[") (Re.Cat (Re.Group 1 (Re.Star Re.CDot))
         (Re.Cat (Re.chr "/") (Re.Cat (Re.Group 2 (Re.Star Re.CDot))
                                     (Re.chr "]")))).

(** The last statement of [__init__].  Its message is formatted from the
    local names [m] and [n], which only the progress branch binds:
    [locals] is [None] where they are unbound. *)
Definition check_bounds (self : t) (locals : option (Z * Z)) : result t :=
  if _n self <? _m self
  then match locals with
       | Some _ => Raise ValueError
       | None => Raise UnboundLocalError
       end
  else Ok self.

Definition __init__ (text : string) : result t :=
  match Re.search re_percent text with
  | Some _ =>
      m <- match Re.search re_percent_cookie text with
           | Some g => int_of_str (Re.group g 1)
           | None => Ok 0
           end ;;
      check_bounds (mk (Some "percent") m 100) None
  | None =>
      match Re.search re_slash text with
      | Some _ =>
          match Re.search re_progress_cookie text with
          | None => Raise AttributeError
          | Some g =>
              m <- (if String.eqb (Re.group g 1) "" then Ok 0
                    else int_of_str (Re.group g 1)) ;;
              n <- (if String.eqb (Re.group g 2) "" then Ok 0
                    else int_of_str (Re.group g 2)) ;;
              check_bounds (mk (Some "progress") m n) (Some (m, n))
          end
      | None => check_bounds (mk None 0 0) None
      end
  end.

Definition m (self : t) : Z := _m self.
Definition n (self : t) : Z := _n self.

(** The setter of [m]. *)
Definition set_m (value : value) : method t unit := fun self =>
  match value with
  | VInt v =>
      if n self <? v then (Raise ValueError, self)
      else (Ok tt, mk (_cookie_type self) v (_n self))
  | _ => (Raise ValueError, self)
  end.

(** The setter of [n]. *)
Definition set_n (value : value) : method t unit := fun self =>
  match value with
  | VInt v =>
      if v <? m self then (Raise ValueError, self)
      else (Ok tt, mk (_cookie_type self) (_m self) v)
  | _ => (Raise ValueError, self)
  end.

Definition __repr__ (self : t) : result string :=
  match _cookie_type self with
  | Some "progress" =>
      first <- str_int (m self) ;;
      second <- str_int (n self) ;;
      Ok ("[" ++ first ++ "/" ++ second ++ "]")
  | _ =>
      first <- str_int (m self) ;;
      Ok ("[" ++ first ++ "%]")
  end.

End Cookie.

(** ** Priority *)

Module Priority.

Definition allowed_values : list string := ["A"; "B"; "C"].

Record t := mk { _priority : string }.

(** The pattern of [_parse_priority]: at the start of the text, a bracketed
    hash sign and one character, which is the group. *)
Definition re_priority : Re.regex :=
  Re.Cat (Re.chr "[") (Re.Cat (Re.chr "#")
         (Re.Cat (Re.Group 1 (Re.One Re.CDot)) (Re.chr "]"))).

Definition _parse_priority (p : string) : string :=
  match Re.search_bol re_priority p with
  | Some g => Re.group g 1
  | None => p
  end.

Definition priority (self : t) : string := _priority self.

(** The setter of [priority]. *)
Definition set_priority (value : string) : method t unit := fun self =>
  if str_in value allowed_values then (Ok tt, mk value)
  else (Raise ValueError, self).

Definition __init__ (priority_text : string) : result t :=
  let p := _parse_priority priority_text in
  if str_in p allowed_values then Ok (mk p) else Raise ValueError.

Definition len_allowed : Z := Z.of_nat (List.length allowed_values).

Definition _raise : method t unit := fun self =>
  match str_index (priority self) allowed_values with
  | Raise e => (Raise e, self)
  | Ok idx =>
      match getitem allowed_values ((idx + 1) mod len_allowed) with
      | Raise e => (Raise e, self)
      | Ok v => set_priority v self
      end
  end.

Definition _lower : method t unit := fun self =>
  match str_index (priority self) allowed_values with
  | Raise e => (Raise e, self)
  | Ok idx =>
      match getitem allowed_values ((idx - 1) mod len_allowed) with
      | Raise e => (Raise e, self)
      | Ok v => set_priority v self
      end
  end.

Definition __repr__ (self : t) : string := "[#" ++ priority self ++ "]".

End Priority.

(** ** Headline *)

Module Headline.

Record t := mk {
  _level : Z;
  _comment : bool;
  _todo : option string;
  _priority : option Priority.t;
  title : string;
  _cookie : option Cookie.t;
  tags : option (list string)
}.

Definition with_level (v : Z) (self : t) : t :=
  mk v (_comment self) (_todo self) (_priority self) (title self)
     (_cookie self) (tags self).

Definition with_todo (v : option string) (self : t) : t :=
  mk (_level self) (_comment self) v (_priority self) (title self)
     (_cookie self) (tags self).

Definition with_priority (v : option Priority.t) (self : t) : t :=
  mk (_level self) (_comment self) (_todo self) v (title self)
     (_cookie self) (tags self).

(** [len(re.sub(r'\s+', '', level))]: the characters of [level] that are
    not white space. *)
Fixpoint count_non_space (level : string) : Z :=
  match level with
  | String c s => (if isspace c then 0 else 1) + count_non_space s
  | EmptyString => 0
  end.

Definition __init__ (level : string) (comment : bool) (todo : option string)
    (priority : option string) (title : string) (cookie : option string)
    (tags : option (list string)) : result t :=
  p <- match priority with
       | None | Some "" => Ok None
       | Some text => q <- Priority.__init__ text ;; Ok (Some q)
       end ;;
  c <- match cookie with
       | None => Ok None
       | Some text => k <- Cookie.__init__ text ;; Ok (Some k)
       end ;;
  Ok (mk (count_non_space level) comment todo p title c tags).

Definition level (self : t) : Z := _level self.
Definition todo (self : t) : option string := _todo self.

(** The setter of [level], for an int. *)
Definition set_level (value : Z) : method t unit := fun self =>
  (Ok tt, with_level value self).

Definition promote (n : Z) : method t unit := fun self =>
  let level := level self - n in
  set_level (Z.max level 1) self.

Definition demote (n : Z) : method t unit := fun self =>
  set_level (level self + n) self.

Section Keywords.

(** The class attributes [_todo_states] and [_done_states], which the
    class reads from the configuration through [get_todos]. *)
Variables _todo_states _done_states : list string.

Definition kw_in (v : option string) (states : list string) : bool :=
  match v with
  | Some s => str_in s states
  | None => false
  end.

(** What the setter of [todo] accepts: [None] or one of the states. *)
Definition accepted (value : option string) : bool :=
  match value with
  | None => true
  | Some s => str_in s _todo_states || str_in s _done_states
  end.

Definition is_done (self : t) : result bool :=
  if kw_in (todo self) _done_states then Ok true
  else match todo self with
       | None => Ok false
       | Some s => if str_in s _todo_states then Ok false
                   else Raise ValueError
       end.

(** The getter of [done]. *)
Definition done (self : t) : result bool := is_done self.

(** The setter of [done]. *)
Definition set_done (_ : bool) : method t unit := mraise AttributeError.

(** The setter of [todo].  In the refusing branch the message is built
    with [set.union] applied to the two lists of states, which is a
    [TypeError] raised before the [ValueError] is reached. *)
Definition set_todo (value : option string) : method t unit := fun self =>
  if negb (kw_in value _todo_states) && negb (kw_in value _done_states)
     && match value with None => false | Some _ => true end
  then (Raise TypeError, self)
  else
    let self := with_todo value self in
    match is_done self with
    | Raise e => (Raise e, self)
    | Ok d => set_done d self
    end.

End Keywords.

Definition raise_priority : method t unit := fun self =>
  match _priority self with
  | None => (Raise AttributeError, self)
  | Some p => let '(r, p') := Priority._raise p in
              (r, with_priority (Some p') self)
  end.

Definition lower_priority : method t unit := fun self =>
  match _priority self with
  | None => (Raise AttributeError, self)
  | Some p => let '(r, p') := Priority._lower p in
              (r, with_priority (Some p') self)
  end.

Definition __repr__ (self : t) : result string :=
  let priority := match _priority self with
                  | Some p => Priority.__repr__ p ++ " "
                  | None => ""
                  end in
  let comment := if _comment self then "COMMENT " else "" in
  let todo := match todo self with
              | None | Some "" => ""
              | Some s => s ++ " "
              end in
  cookie <- match _cookie self with
            | Some c => Cookie.__repr__ c
            | None => Ok ""
            end ;;
  let tags := match tags self with
              | None | Some [] => ""
              | Some l => "    :" ++ String.concat ":" l ++ ":"
              end in
  Ok (repeat_chr "*" (Z.to_nat (level self)) ++ " " ++ todo ++ comment
        ++ priority ++ title self ++ " " ++ cookie ++ tags).

End Headline.

(** ** The part of [datetime] that the classes use *)

Module Datetime.

Record datetime := mk {
  year : Z;
  month : Z;
  day : Z;
  hour : Z;
  minute : Z;
  second : Z
}.

Record timedelta := mkdelta {
  days : Z;
  seconds : Z
}.

Definition _is_leap (y : Z) : bool :=
  (y mod 4 =? 0) && (negb (y mod 100 =? 0) || (y mod 400 =? 0)).

Definition _days_before_year (y : Z) : Z :=
  let y := y - 1 in y * 365 + y / 4 - y / 100 + y / 400.

Definition _DAYS_IN_MONTH : list Z :=
  [31; 28; 31; 30; 31; 30; 31; 31; 30; 31; 30; 31].

Definition _days_in_month (y m : Z) : Z :=
  if (m =? 2) && _is_leap y then 29
  else nth (Z.to_nat (m - 1)) _DAYS_IN_MONTH 0.

Definition _days_before_month (y m : Z) : Z :=
  fold_right Z.add 0 (firstn (Z.to_nat (m - 1)) _DAYS_IN_MONTH)
  + (if (2 <? m) && _is_leap y then 1 else 0).

Definition _ymd2ord (y m d : Z) : Z :=
  _days_before_year y + _days_before_month y m + d.

Definition toordinal (t : datetime) : Z := _ymd2ord (year t) (month t) (day t).

(** Monday is 0. *)
Definition weekday (t : datetime) : Z := (toordinal t + 6) mod 7.

Definition valid_date (y m d : Z) : bool :=
  (1 <=? y) && (y <=? 9999) && (1 <=? m) && (m <=? 12)
  && (1 <=? d) && (d <=? _days_in_month y m).

(** Abbreviated day names of the C locale. *)
Definition a_weekday : list string :=
  ["Mon"; "Tue"; "Wed"; "Thu"; "Fri"; "Sat"; "Sun"].

(** What [strftime] writes for a directive: two digits for the month,
    the day, the hour and the minute; the year as the C library of the
    platform writes it, which on Linux is without padding, so that a year
    below 1000 has fewer than the four digits that [strptime] asks for. *)
Definition directive (c : ascii) (t : datetime) : string :=
  match c with
  | "Y"%char => str_of_int (year t)
  | "m"%char => zfill 2 (month t)
  | "d"%char => zfill 2 (day t)
  | "a"%char => nth (Z.to_nat (weekday t)) a_weekday ""
  | "H"%char => zfill 2 (hour t)
  | "M"%char => zfill 2 (minute t)
  | _ => String "%" (String c "")
  end.

(** [t.strftime(fmt)] for the directives above. *)
Fixpoint strftime (fmt : string) (t : datetime) : string :=
  match fmt with
  | String "%" (String c rest) => directive c t ++ strftime rest t
  | String c rest => String c (strftime rest t)
  | EmptyString => EmptyString
  end.

(** The seconds from the first instant of year 1. *)
Definition timestamp (t : datetime) : Z :=
  toordinal t * 86400 + hour t * 3600 + minute t * 60 + second t.

(** [a - b], normalised as [timedelta] does: [0 <= seconds < 86400]. *)
Definition sub (a b : datetime) : timedelta :=
  let total := timestamp a - timestamp b in
  mkdelta (total / 86400) (total mod 86400).

Definition fields (t : datetime) : list Z :=
  [year t; month t; day t; hour t; minute t; second t].

Fixpoint lex_lt (a b : list Z) : bool :=
  match a, b with
  | x :: a', y :: b' => (x <? y) || ((x =? y) && lex_lt a' b')
  | [], _ :: _ => true
  | _, [] => false
  end.

(** [a < b] and [a > b] *)
Definition lt (a b : datetime) : bool := lex_lt (fields a) (fields b).
Definition gt (a b : datetime) : bool := lt b a.

Definition same_date (a b : datetime) : bool :=
  (year a =? year b) && (month a =? month b) && (day a =? day b).

(** *** [strptime]

    The format is turned into a pattern as [_strptime] does it: a
    directive reads digits or a day name, white space in the format stands
    for one or more white space characters, any other character stands for
    itself; the whole text has to be used up and the date has to exist. *)

Definition digit_val (c : ascii) : Z := Z.of_nat (nat_of_ascii c) - 48.

Definition two_digits (lo hi : Z) (s : string) : list (Z * string) :=
  match s with
  | String a (String b rest) =>
      if is_digit a && is_digit b
      then let v := 10 * digit_val a + digit_val b in
           if (lo <=? v) && (v <=? hi) then [(v, rest)] else []
      else []
  | _ => []
  end.

Definition one_digit (lo : Z) (s : string) : list (Z * string) :=
  match s with
  | String a rest =>
      if is_digit a && (lo <=? digit_val a) then [(digit_val a, rest)] else []
  | EmptyString => []
  end.

Definition lower_chr (c : ascii) : ascii :=
  let n := nat_of_ascii c in
  if ((65 <=? n) && (n <=? 90))%nat then ascii_of_nat (n + 32) else c.

Fixpoint lower_ascii (s : string) : string :=
  match s with
  | String c s' => String (lower_chr c) (lower_ascii s')
  | EmptyString => EmptyString
  end.

Definition day_name (s : string) : list (Z * string) :=
  let head := substring 0 3 s in
  if (String.length head =? 3)%nat
     && str_in (lower_ascii head) (map lower_ascii a_weekday)
  then [(0, substring 3 (String.length s - 3) s)]
  else [].

(** What a directive may read at the head of [s], in the order in which
    its alternatives are tried, each with the text left over. *)
Definition reads (c : ascii) (s : string) : list (Z * string) :=
  match c with
  | "Y"%char =>
      match s with
      | String a (String b (String c (String d rest))) =>
          if is_digit a && is_digit b && is_digit c && is_digit d
          then [(1000 * digit_val a + 100 * digit_val b + 10 * digit_val c
                 + digit_val d, rest)]
          else []
      | _ => []
      end
  | "m"%char => two_digits 1 12 s ++ one_digit 1 s
  | "d"%char =>
      two_digits 1 31 s ++ one_digit 1 s
      ++ match s with
         | String " " s' => one_digit 1 s'
         | _ => []
         end
  | "H"%char => two_digits 0 23 s ++ one_digit 0 s
  | "M"%char => two_digits 0 59 s ++ one_digit 0 s
  | "a"%char => day_name s
  | _ => []
  end.

Definition store (c : ascii) (v : Z) (t : datetime) : datetime :=
  match c with
  | "Y"%char => mk v (month t) (day t) (hour t) (minute t) (second t)
  | "m"%char => mk (year t) v (day t) (hour t) (minute t) (second t)
  | "d"%char => mk (year t) (month t) v (hour t) (minute t) (second t)
  | "H"%char => mk (year t) (month t) (day t) v (minute t) (second t)
  | "M"%char => mk (year t) (month t) (day t) (hour t) v (second t)
  | _ => t
  end.

Fixpoint first_some {A B} (f : A -> option B) (l : list A) : option B :=
  match l with
  | [] => None
  | a :: l' => match f a with
               | Some b => Some b
               | None => first_some f l'
               end
  end.

Fixpoint parse (fmt : string) (s : string) (t : datetime) : option datetime :=
  match fmt with
  | EmptyString => match s with EmptyString => Some t | _ => None end
  | String "%" (String c rest) =>
      first_some (fun vr => parse rest (snd vr) (store c (fst vr) t))
                 (reads c s)
  | String c rest =>
      if isspace c
      then match s with
           | String a s' =>
               if isspace a
               then Re.star Re.CSpace s' (fun s'' => parse rest s'' t)
               else None
           | EmptyString => None
           end
      else match s with
           | String a s' => if Ascii.eqb a c then parse rest s' t else None
           | EmptyString => None
           end
  end.

Definition strptime (s fmt : string) : result datetime :=
  match parse fmt s (mk 1900 1 1 0 0 0) with
  | Some t => if valid_date (year t) (month t) (day t) then Ok t
              else Raise ValueError
  | None => Raise ValueError
  end.

End Datetime.

Definition ORG_TIME_FORMAT : string := "%Y-%m-%d %a %H:%M".

(** ** TimeStamp *)

Module TimeStamp.

Import Datetime.

Record t := mk {
  _active : bool;
  _start_time : datetime;
  _end_time : option datetime;
  _repeater : option string;
  _deadline_warn : option string
}.

Definition with_active (v : bool) (self : t) : t :=
  mk v (_start_time self) (_end_time self) (_repeater self)
     (_deadline_warn self).
Definition with_start_time (v : datetime) (self : t) : t :=
  mk (_active self) v (_end_time self) (_repeater self) (_deadline_warn self).
Definition with_end_time (v : option datetime) (self : t) : t :=
  mk (_active self) (_start_time self) v (_repeater self)
     (_deadline_warn self).
Definition with_repeater (v : option string) (self : t) : t :=
  mk (_active self) (_start_time self) (_end_time self) v
     (_deadline_warn self).
Definition with_deadline_warn (v : option string) (self : t) : t :=
  mk (_active self) (_start_time self) (_end_time self) (_repeater self) v.

(** [' '.join(ORG_TIME_FORMAT.split(' ')[:-1])] and
    [' '.join(ORG_TIME_FORMAT.split(' ')[0:2])], the format of the date
    without the time of day. *)
Definition date_format : string :=
  String.concat " " (removelast (split " " ORG_TIME_FORMAT)).

(** [date_components] is the date, the day of the week and the time of
    day, the last of which may be [None]. *)
Definition _to_datetime (date_components : list (option string))
  : result datetime :=
  match date_components with
  | [] => Raise IndexError
  | _ =>
  let '(dt_format, date_components) :=
    match last date_components None with
    | None => (date_format, removelast date_components)
    | Some _ => (ORG_TIME_FORMAT, date_components)
    end in
  if forallb (fun c => match c with Some _ => true | None => false end)
             date_components
  then strptime
         (String.concat " "
            (map (fun c => match c with Some s => s | None => "" end)
                 date_components))
         dt_format
  else Raise TypeError
  end.

(** What the setters of [start_time] and [end_time] are handed. *)
Inductive time_value :=
| TNone
| TStr (s : string)
| TDatetime (d : datetime)
| TOther.

Definition start_time (self : t) : datetime := _start_time self.
Definition end_time (self : t) : option datetime := _end_time self.
Definition active (self : t) : bool := _active self.
Definition repeater (self : t) : option string := _repeater self.
Definition deadline_warn (self : t) : option string := _deadline_warn self.

Definition set_start_time (value : time_value) : method t unit := fun self =>
  let parsed :=
    match value with
    | TStr s =>
        strptime (String.concat " " [strftime date_format (start_time self); s])
                 ORG_TIME_FORMAT
    | TDatetime v =>
        match end_time self with
        | None => Raise AttributeError
        | Some e => if same_date v e then Ok v else Raise ValueError
        end
    | _ => Raise TypeError
    end in
  match parsed with
  | Raise e => (Raise e, self)
  | Ok t' =>
      match end_time self with
      | None => (Raise TypeError, self)
      | Some e => if gt t' e then (Raise ValueError, self)
                  else (Ok tt, with_start_time t' self)
      end
  end.

(** The setter of [active], for a bool. *)
Definition set_active (value : bool) : method t unit := fun self =>
  (Ok tt, with_active value self).

Definition set_end_time (value : time_value) : method t unit := fun self =>
  match value with
  | TNone => (Ok tt, with_end_time None self)
  | TStr s =>
      match end_time self with
      | None => (Raise AttributeError, self)
      | Some e =>
          match strptime (String.concat " " [strftime date_format e; s])
                         ORG_TIME_FORMAT with
          | Raise x => (Raise x, self)
          | Ok t' => if lt t' (start_time self) then (Raise ValueError, self)
                     else (Ok tt, with_end_time (Some t') self)
          end
      end
  | TDatetime v =>
      if same_date v (start_time self)
      then if lt v (start_time self) then (Raise ValueError, self)
           else (Ok tt, with_end_time (Some v) self)
      else (Raise ValueError, self)
  | TOther => (Raise TypeError, self)
  end.

(** The patterns of the two setters below: at the start, an optional dot
    or plus sign, a plus sign, digits and a unit; at the start, a minus
    sign, digits and a unit. *)
Definition re_repeater : Re.regex :=
  Re.Cat (Re.Opt (Re.CIn ".+")) (Re.Cat (Re.chr "+")
         (Re.Cat (Re.Plus (Re.CIn "0123456789")) (Re.One (Re.CIn "hdwmy")))).
Definition re_deadline_warn : Re.regex :=
  Re.Cat (Re.chr "-")
         (Re.Cat (Re.Plus (Re.CIn "0123456789")) (Re.One (Re.CIn "hdwmy"))).

Definition set_repeater (value : option string) : method t unit := fun self =>
  match value with
  | None => (Ok tt, with_repeater None self)
  | Some v =>
      match Re.search_bol re_repeater v with
      | Some _ => (Ok tt, with_repeater value self)
      | None => (Raise ValueError, self)
      end
  end.

Definition set_deadline_warn (value : option string) : method t unit :=
  fun self =>
  match value with
  | None => (Ok tt, with_deadline_warn None self)
  | Some v =>
      match Re.search_bol re_deadline_warn v with
      | Some _ => (Ok tt, with_deadline_warn value self)
      | None => (Raise ValueError, self)
      end
  end.

Definition __repr__ (self : t) : string :=
  let ldelim := if active self then "<" else "[" in
  let rdelim := if active self then ">" else "]" in
  let timestamp := strftime ORG_TIME_FORMAT (start_time self) in
  let timestamp :=
    match end_time self with
    | Some e => timestamp ++ "-" ++ strftime "%H-%M" e
    | None => timestamp
    end in
  let timestamp :=
    match repeater self with
    | None | Some "" => timestamp
    | Some r => timestamp ++ " " ++ r
    end in
  let timestamp :=
    match deadline_warn self with
    | None | Some "" => timestamp
    | Some w => timestamp ++ " " ++ w
    end in
  ldelim ++ timestamp ++ rdelim.

End TimeStamp.

(** ** Scheduling

    The [TimeStamp] assigned to a keyword is kept by reference and changed
    in place by the assignment, so the stamps live in a store. *)

Module Scheduling.

Definition loc := nat.
Definition store := loc -> TimeStamp.t.

Definition upd (st : store) (l : loc) (v : TimeStamp.t) : store :=
  fun l' => if Nat.eqb l' l then v else st l'.

Record t := mk {
  _closed : option loc;
  _scheduled : option loc;
  _deadline : option loc
}.

(** An instance on which no keyword was assigned reads the class
    attributes, which are all [None]. *)
Definition empty : t := mk None None None.

Definition valid_keywords : list string := ["closed"; "scheduled"; "deadline"].

(** [getattr(self, keyword)] for a valid keyword. *)
Definition getattr (self : t) (keyword : string) : option loc :=
  match keyword with
  | "closed" => _closed self
  | "scheduled" => _scheduled self
  | "deadline" => _deadline self
  | _ => None
  end.

Definition put (obj : t) (keyword : string) (v : option loc) : t :=
  match keyword with
  | "closed" => mk v (_scheduled obj) (_deadline obj)
  | "scheduled" => mk (_closed obj) v (_deadline obj)
  | "deadline" => mk (_closed obj) (_scheduled obj) v
  | _ => obj
  end.

(** What a keyword may be assigned. *)
Inductive kw_value :=
| KNone
| KStamp (l : loc)
| KOther.

(** One attribute assignment on the stamp at [l]. *)
Definition on_stamp (l : loc) (m : method TimeStamp.t unit)
  : method store unit := fun st =>
  let '(r, v) := m (st l) in (r, upd st l v).

(** [Keyword.__set__], for the descriptor of [keyword], which keeps its
    value in the attribute of that name with an underscore in front. *)
Definition __set__ (keyword : string) (obj : t) (value : kw_value)
  : method store t :=
  match value with
  | KNone => mret (put obj keyword None)
  | KStamp l =>
      _ <-- (if String.eqb keyword "closed"
             then _ <-- on_stamp l (TimeStamp.set_active false) ;;
                  _ <-- on_stamp l (TimeStamp.set_end_time TimeStamp.TNone) ;;
                  _ <-- on_stamp l (TimeStamp.set_repeater None) ;;
                  on_stamp l (TimeStamp.set_deadline_warn None)
             else mret tt) ;;
      _ <-- (if String.eqb keyword "scheduled" || String.eqb keyword "deadline"
             then on_stamp l (TimeStamp.set_active true)
             else mret tt) ;;
      _ <-- (if negb (String.eqb keyword "deadline")
             then on_stamp l (TimeStamp.set_deadline_warn None)
             else mret tt) ;;
      mret (put obj keyword (Some l))
  | KOther => mraise TypeError
  end.

(** [re.sub(r':\s*$', '', keyword)]: the text is cut at the first colon
    after which only white space follows. *)
Fixpoint all_space (s : string) : bool :=
  match s with
  | String c s' => isspace c && all_space s'
  | EmptyString => true
  end.

Fixpoint cut_colon (keyword : string) : string :=
  match keyword with
  | String c s' =>
      if Ascii.eqb c ":" && all_space s' then EmptyString
      else String c (cut_colon s')
  | EmptyString => EmptyString
  end.

Definition __init__ (keyword : option string) (timestamp : kw_value)
  : method store t :=
  match keyword, timestamp with
  | Some keyword, (KStamp _ | KOther) =>
      let canonical_keyword := Datetime.lower_ascii (cut_colon keyword) in
      if negb (str_in canonical_keyword valid_keywords)
      then mraise ValueError
      else match timestamp with
           | KStamp l => __set__ canonical_keyword empty timestamp
           | _ => mraise TypeError
           end
  | _, _ => mret empty
  end.

Definition or_ (a b : option loc) : kw_value :=
  match a, b with
  | Some l, _ => KStamp l
  | None, Some l => KStamp l
  | None, None => KNone
  end.

Definition is_set (v : option loc) : bool :=
  match v with Some _ => true | None => false end.

(** [__add__].  Both branches of the body of the outer loop leave the
    function: the first raises, the second returns the merged value. *)
Definition __add__ (self other : t) : method store (flow t) :=
  for_return valid_keywords (fun keyword =>
    if is_set (getattr self keyword) && is_set (getattr other keyword)
    then mraise ValueError
    else
      fun st =>
        let result := empty in
        let step '(r, st) keyword :=
          match r with
          | Ok result =>
              __set__ keyword result
                (or_ (getattr self keyword) (getattr other keyword)) st
          | Raise e => (Raise e, st)
          end in
        match fold_left step valid_keywords (Ok result, st) with
        | (Ok result, st') => (Ok (Return result), st')
        | (Raise e, st') => (Raise e, st')
        end).

Fixpoint upper_ascii (s : string) : string :=
  match s with
  | String c s' =>
      let n := nat_of_ascii c in
      String (if ((97 <=? n) && (n <=? 122))%nat then ascii_of_nat (n - 32)
              else c)
             (upper_ascii s')
  | EmptyString => EmptyString
  end.

Definition __repr__ (st : store) (self : t) : string :=
  let data :=
    flat_map (fun keyword =>
      match getattr self keyword with
      | Some l =>
          [upper_ascii keyword ++ ": " ++ TimeStamp.__repr__ (st l)]
      | None => []
      end) valid_keywords in
  String.concat " " data.

End Scheduling.

(** ** Clocking *)

Module Clocking.

Import Datetime.

Record t := mk {
  _start_time : datetime;
  _end_time : option datetime
}.

Definition __init__ (start_time : string) (end_time : option string)
  : result t :=
  s <- strptime start_time ORG_TIME_FORMAT ;;
  e <- match end_time with
       | Some text => e <- strptime text ORG_TIME_FORMAT ;; Ok (Some e)
       | None => Ok None
       end ;;
  Ok (mk s e).

Definition start_time (self : t) : datetime := _start_time self.
Definition end_time (self : t) : option datetime := _end_time self.

(** The setters of [start_time] and [end_time].  [strptime] raises
    [TypeError] for a value that is not a string, which the setters do not
    catch; its [ValueError] is raised again with another message. *)
Definition set_start_time (value : value) : method t unit := fun self =>
  match value with
  | VStr text =>
      match strptime text ORG_TIME_FORMAT with
      | Ok datetime_obj => (Ok tt, mk datetime_obj (_end_time self))
      | Raise ValueError => (Raise ValueError, self)
      | Raise e => (Raise e, self)
      end
  | _ => (Raise TypeError, self)
  end.

Definition set_end_time (value : value) : method t unit := fun self =>
  match value with
  | VNone => (Ok tt, mk (_start_time self) None)
  | VStr text =>
      match strptime text ORG_TIME_FORMAT with
      | Ok datetime_obj => (Ok tt, mk (_start_time self) (Some datetime_obj))
      | Raise ValueError => (Raise ValueError, self)
      | Raise e => (Raise e, self)
      end
  | _ => (Raise TypeError, self)
  end.


(** [x % y] on floats, for a positive [y]. *)
Definition fmod (x y : Q) : Q := (x - y * inject_Z (Qfloor (x / y)))%Q.

(** The quotients of [_display_delta] are Python floats.  They are
    kept as exact fractions here: each is a multiple of 1/86400 within the
    range of a [timedelta], well inside what a float tells apart, so that
    [floor] sees the same integer.  The numbers that are written have at
    most ten digits in that range, far from the limit of [str_int]. *)
Definition _display_delta (time_delta : timedelta) : string :=
  let total_seconds := days time_delta * 24 * 3600 + seconds time_delta in
  let m := (inject_Z total_seconds / 60)%Q in
  let s := total_seconds mod 60 in
  let m := if 30 <? s then (m + 1)%Q else m in
  let h := (m / 60)%Q in
  let m := fmod m 60 in
  let d := (h / 24)%Q in
  let h := fmod h 24 in
  let days := Qfloor d in
  let hours := Qfloor h in
  let minutes := Qfloor m in
  if days =? 0
  then str_of_int hours ++ ":" ++ zfill 2 minutes
  else str_of_int days ++ "d " ++ str_of_int hours ++ ":" ++ zfill 2 minutes.

(** The getter of [duration]; [now] is what [dt.now()] returns. *)
Definition duration (now : datetime) (self : t) : string :=
  match end_time self with
  | None => _display_delta (sub now (start_time self))
  | Some e => _display_delta (sub e (start_time self))
  end.

(** The setter of [duration]. *)
Definition set_duration (_ : value) : method t unit := mraise TypeError.

Definition __repr__ (now : datetime) (self : t) : string :=
  match end_time self with
  | None => "[" ++ strftime ORG_TIME_FORMAT (start_time self) ++ "]"
  | Some e =>
      "[" ++ strftime ORG_TIME_FORMAT (start_time self) ++ "]--["
      ++ strftime ORG_TIME_FORMAT e ++ "] =>  " ++ duration now self
  end.

End Clocking.

(** ** Drawer *)

Module Drawer.

Record t := mk {
  name : string;
  contents : list string
}.

(** [re.sub(r':', '', s)] *)
Fixpoint drop_colons (s : string) : string :=
  match s with
  | String c s' => if Ascii.eqb c ":" then drop_colons s'
                   else String c (drop_colons s')
  | EmptyString => EmptyString
  end.

Definition __init__ (drawer_string : string) : t :=
  mk (drop_colons (hd "" (split "010" drawer_string)))
     (removelast (tl (split "010" (strip drawer_string)))).

Definition __repr__ (self : t) : string :=
  let contents := String.concat nl (contents self) in
  ":" ++ name self ++ ":" ++ nl ++ contents ++ nl ++ ":END:" ++ nl.

(** [str(l)] for a list of drawers. *)
Definition str_list (l : list t) : string :=
  "[" ++ String.concat ", " (map __repr__ l) ++ "]".

End Drawer.

(** ** The source text of a document

    Modelled from the spec: the layout of the text that the tokenizer
    reads, which is not under [src/].  The specification has a plain-text,
    line-oriented document, which the tokenizer splits into one tuple per
    heading: headline line, scheduling line or none, drawer blocks and
    body text (External interfaces).  A heading is followed by the
    headings below it, depth first (Data flow).  Its own sample is the
    text of [Examples.calculation_source] below. *)

Module Source.

Record tokens := mk {
  headline_text : string;
  scheduling_text : option string;
  drawer_block_texts : list string;
  body_text : string
}.

#[warnings="-register-all"] Inductive document :=
| Node (own : tokens) (below : list document).

(** The lines of one heading.  Every line ends with a newline; a drawer
    block brings its own, after its last line; an empty body text is no
    line. *)
Definition own_text (tuple : tokens) : string :=
  headline_text tuple ++ nl
  ++ match scheduling_text tuple with
     | Some line => line ++ nl
     | None => ""
     end
  ++ String.concat "" (drawer_block_texts tuple)
  ++ match body_text tuple with
     | "" => ""
     | lines => lines ++ nl
     end.

Fixpoint text (d : document) : string :=
  match d with
  | Node tuple below => own_text tuple ++ String.concat "" (map text below)
  end.




End Source.

(** ** Heading

    The nodes of a document are objects that point at each other: they
    live in a heap, [parent], [sibling] and the elements of [children] are
    references into it.  A list of children is kept as a value:
    [promote], [demote], [remove_child] and [add_child] for a heading that
    is not new build a new list and assign it.  Only [add_child] for a new
    heading appends to the list object that is there, which every heading
    that holds this object sees; the heap does not record which lists are
    one object, so that the headings that share it are named where it
    matters. *)

Module Heading.

Definition ref := nat.

Record t := mk {
  _headline : Headline.t;
  _scheduling : option Scheduling.t;
  _drawers : option (list Drawer.t);
  body : option string;
  _properties : list (string * string);
  _children : option (list ref);
  _parent : option ref;
  _sibling : option ref
}.

Definition with_headline (v : Headline.t) (h : t) : t :=
  mk v (_scheduling h) (_drawers h) (body h) (_properties h) (_children h)
     (_parent h) (_sibling h).
Definition with_drawers (v : option (list Drawer.t)) (h : t) : t :=
  mk (_headline h) (_scheduling h) v (body h) (_properties h) (_children h)
     (_parent h) (_sibling h).
Definition with_children (v : option (list ref)) (h : t) : t :=
  mk (_headline h) (_scheduling h) (_drawers h) (body h) (_properties h) v
     (_parent h) (_sibling h).
Definition with_parent (v : option ref) (h : t) : t :=
  mk (_headline h) (_scheduling h) (_drawers h) (body h) (_properties h)
     (_children h) v (_sibling h).
Definition with_sibling (v : option ref) (h : t) : t :=
  mk (_headline h) (_scheduling h) (_drawers h) (body h) (_properties h)
     (_children h) (_parent h) v.

Definition heap := ref -> t.

Definition upd (s : heap) (r : ref) (v : t) : heap :=
  fun r' => if Nat.eqb r' r then v else s r'.

(** One field assignment on the object at [r]. *)
Definition modify (r : ref) (f : t -> t) : method heap unit :=
  fun s => (Ok tt, upd s r (f (s r))).

(** Reading an attribute of the object at [r], and of an expression that
    may be [None]. *)
Definition read {A} (field : t -> A) (r : ref) : method heap A :=
  fun s => (Ok (field (s r)), s).

Definition attr {A} (field : t -> A) (o : option ref) : method heap A :=
  match o with
  | Some r => read field r
  | None => mraise AttributeError
  end.

(** The truth value of a list or [None]. *)
Definition truthy {A} (l : option (list A)) : bool :=
  match l with
  | Some (_ :: _) => true
  | _ => false
  end.

(** [l.index(x)] on a list of headings, which compare by identity; on
    [None] the attribute [index] is missing. *)
Fixpoint index_from (l : list ref) (x : ref) (i : Z) : result Z :=
  match l with
  | [] => Raise ValueError
  | y :: l' => if Nat.eqb y x then Ok i else index_from l' x (i + 1)
  end.

Definition index (l : option (list ref)) (x : ref) : result Z :=
  match l with
  | Some l => index_from l x 0
  | None => Raise AttributeError
  end.

(** The setters of [children], [parent] and [sibling], for [None], a
    heading, or a list of headings. *)
Definition set_children (r : ref) (value : option (list ref))
  : method heap unit := modify r (with_children value).
Definition set_parent (r : ref) (value : option ref) : method heap unit :=
  modify r (with_parent value).
Definition set_sibling (r : ref) (value : option ref) : method heap unit :=
  modify r (with_sibling value).

(** The same assignments on an expression that may be [None]. *)
Definition assign (set : ref -> method heap unit) (o : option ref)
  : method heap unit :=
  match o with
  | Some r => set r
  | None => mraise AttributeError
  end.

Definition level (s : heap) (r : ref) : Z := Headline.level (_headline (s r)).

Definition on_headline (r : ref) (m : method Headline.t unit)
  : method heap unit := fun s =>
  let '(res, h) := m (_headline (s r)) in
  (res, upd s r (with_headline h (s r))).

(** [add_child].  A new heading is appended in place when there are
    children already: the list object changes for [self] and for the
    headings [sharing] that hold the same object.  Every other branch
    assigns a new list to [self]. *)
Definition add_child_sharing (sharing : list ref) (self heading : ref)
    (new : bool) : method heap unit :=
  children <-- read _children self ;;
  if new
  then match children with
       | Some (c :: cs) =>
           for_each (self :: sharing) (fun holder =>
             set_children holder (Some ((c :: cs) ++ [heading])%list))
       | _ => set_children self (Some [heading])
       end
  else match children with
       | Some (c :: cs) =>
           sibling <-- read _sibling heading ;;
           match sibling with
           | Some sib =>
               match index_from (c :: cs) sib 0 with
               | Ok idx =>
                   set_children self
                     (Some (firstn (Z.to_nat (idx + 1)) (c :: cs)
                            ++ [heading]
                            ++ skipn (Z.to_nat (idx + 1)) (c :: cs))%list)
               | Raise _ => mraise ValueError
               end
           | None => set_children self (Some (heading :: c :: cs))
           end
       | _ => set_children self (Some [heading])
       end.

(** [add_child] on a list of children that no other heading holds. *)
Definition add_child (self heading : ref) (new : bool) : method heap unit :=
  add_child_sharing [] self heading new.

Definition remove_child (self child : ref) : method heap unit :=
  children <-- read _children self ;;
  match children with
  | Some (c :: cs) =>
      set_children self
        (Some (filter (fun c => negb (Nat.eqb c child)) (c :: cs)))
  | _ => mret tt
  end.

(** A method call on an expression that may be [None]. *)
Definition call {A} (o : option ref) (m : ref -> method heap A)
  : method heap A :=
  match o with
  | Some r => m r
  | None => mraise AttributeError
  end.

Definition promote (self : ref) : method heap unit :=
  children <-- read _children self ;;
  if truthy children then mraise TypeError else
  _ <-- on_headline self (Headline.promote 1) ;;
  parent <-- read _parent self ;;
  _ <-- set_sibling self parent ;;
  sibling <-- read _sibling self ;;
  sibling_children <-- attr _children sibling ;;
  idx <-- mlift (index sibling_children self) ;;
  let next_siblings :=
    skipn (Z.to_nat (idx + 1))
          (match sibling_children with Some l => l | None => [] end) in
  _ <-- match next_siblings with
        | first :: _ =>
            _ <-- set_sibling first None ;;
            for_each next_siblings (fun s => set_parent s (Some self))
        | [] => mret tt
        end ;;
  _ <-- set_children self (Some next_siblings) ;;
  sibling <-- read _sibling self ;;
  _ <-- call sibling (fun r => remove_child r self) ;;
  _ <-- for_each next_siblings (fun s =>
          sibling <-- read _sibling self ;;
          call sibling (fun r => remove_child r s)) ;;
  parent <-- read _parent self ;;
  grandparent <-- attr _parent parent ;;
  _ <-- set_parent self grandparent ;;
  parent <-- read _parent self ;;
  call parent (fun r => add_child r self false).

Definition demote (self : ref) : method heap unit :=
  sibling <-- read _sibling self ;;
  match sibling with
  | None => mraise ValueError
  | Some _ =>
  _ <-- on_headline self (Headline.demote 1) ;;
  parent <-- read _parent self ;;
  parent_children <-- attr _children parent ;;
  idx <-- mlift (index parent_children self) ;;
  _ <-- match getitem (match parent_children with Some l => l | None => [] end)
                      (idx + 1) with
        | Ok next_sibling =>
            sibling <-- read _sibling self ;;
            set_sibling next_sibling sibling
        | Raise _ => mret tt
        end ;;
  parent <-- read _parent self ;;
  _ <-- call parent (fun r => remove_child r self) ;;
  sibling <-- read _sibling self ;;
  _ <-- set_parent self sibling ;;
  parent <-- read _parent self ;;
  parent_children <-- attr _children parent ;;
  _ <-- match parent_children with
        | Some (c :: cs) =>
            last <-- mlift (getitem (c :: cs) (-1)) ;;
            set_sibling self (Some last)
        | _ => set_sibling self None
        end ;;
  parent <-- read _parent self ;;
  _ <-- call parent (fun r => add_child r self false) ;;
  children <-- read _children self ;;
  _ <-- match children with
        | Some (first :: rest) =>
            _ <-- set_sibling first (Some self) ;;
            for_each (first :: rest) (fun child =>
              parent <-- read _parent self ;;
              _ <-- set_parent child parent ;;
              parent <-- read _parent self ;;
              call parent (fun r => add_child r child false))
        | _ => mret tt
        end ;;
  set_children self None
  end.

(** [promote_tree] and [demote_tree].  [depth] is the number of nested
    calls that the interpreter still allows. *)
Fixpoint promote_tree (depth : nat) (self : ref) : method heap unit :=
  match depth with
  | O => mraise RecursionError
  | S depth' =>
      children <-- read _children self ;;
      _ <-- promote self ;;
      match children with
      | Some (c :: cs) => for_each (c :: cs) (promote_tree depth')
      | _ => mret tt
      end
  end.

Fixpoint demote_tree (depth : nat) (self : ref) : method heap unit :=
  match depth with
  | O => mraise RecursionError
  | S depth' =>
      children <-- read _children self ;;
      _ <-- demote self ;;
      match children with
      | Some (c :: cs) => for_each (c :: cs) (demote_tree depth')
      | _ => mret tt
      end
  end.

(** [d[key] = value] on a dict, kept as the list of its items in the
    order in which the keys were first set. *)
Fixpoint dict_set (d : list (string * string)) (key value : string)
  : list (string * string) :=
  match d with
  | [] => [(key, value)]
  | (k, v) :: d' =>
      if String.eqb k key then (k, value) :: d'
      else (k, v) :: dict_set d' key value
  end.

(** [d.get(key)] *)
Fixpoint dict_get (d : list (string * string)) (key : string)
  : option string :=
  match d with
  | [] => None
  | (k, v) :: d' => if String.eqb k key then Some v else dict_get d' key
  end.

Definition with_properties (v : list (string * string)) (h : t) : t :=
  mk (_headline h) (_scheduling h) (_drawers h) (body h) v (_children h)
     (_parent h) (_sibling h).

(** The setter of [properties], for a dict. *)
Definition set_properties (self : ref) (val : list (string * string))
  : method heap unit :=
  for_each val (fun item =>
    modify self (fun h =>
      with_properties (dict_set (_properties h) (fst item) (snd item)) h)).

(** The getter of [properties], and [_get_properties_string]. *)
Definition properties (self : ref) : method heap (list (string * string)) :=
  read _properties self.

Definition _get_properties_string (self : ref) : method heap string :=
  properties <-- properties self ;;
  mret (String.concat nl
          (map (fun kv => ":" ++ fst kv ++ ":" ++ repeat_chr " " 7 ++ snd kv)
               properties)).

(** The getter of [drawers], which first brings the PROPERTIES drawer up
    to date with the properties and stores the result. *)
Definition drawers (self : ref) : method heap (option (list Drawer.t)) :=
  text <-- _get_properties_string self ;;
  let updated_properties_drawer :=
    Drawer.__init__ (":PROPERTIES:" ++ nl ++ text ++ nl ++ ":END:") in
  stored <-- read _drawers self ;;
  _ <-- match stored with
        | Some (d :: rest) =>
            if String.eqb (Drawer.name d) "PROPERTIES"
            then modify self
                   (with_drawers (Some (updated_properties_drawer :: rest)))
            else mret tt
        | _ =>
            properties <-- properties self ;;
            match properties with
            | _ :: _ =>
                modify self (with_drawers (Some [updated_properties_drawer]))
            | [] => mret tt
            end
        end ;;
  read _drawers self.

Definition nonempty (s : string) : bool :=
  match s with
  | EmptyString => false
  | String _ _ => true
  end.

Section Rendering.

(** The stamps that the [Scheduling] values of the document refer to. *)
Variable stamps : Scheduling.store.

(** The first three lines of [__repr__]: the texts of the scheduling, of
    the drawers and of the body, each with its newline. *)
Definition scheduling_text (self : ref) : method heap string :=
  scheduling <-- read _scheduling self ;;
  mret match scheduling with
       | Some s => Scheduling.__repr__ stamps s ++ nl
       | None => ""
       end.

Definition drawers_text (self : ref) : method heap string :=
  d <-- drawers self ;;
  if truthy d
  then d <-- drawers self ;;
       mret (match d with Some l => Drawer.str_list l | None => "None" end
             ++ nl)
  else mret "".

Definition body_text (self : ref) : method heap string :=
  body <-- read body self ;;
  mret match body with
       | Some (String c b) => String c b ++ nl
       | _ => ""
       end.

(** The fourth and fifth line: a body text of more than 80 characters is
    cut. *)
Definition abbreviate (body : string) : string :=
  if (80 <? String.length body)%nat
  then strip (substring 0 77 body) ++ "..." ++ nl
  else body.

Definition assemble (headline scheduling drawers body children : string)
  : string :=
  let newline :=
    if nonempty scheduling || nonempty drawers || nonempty body
    then nl else "" in
  headline ++ newline ++ scheduling ++ drawers ++ body ++ children.

(** [__repr__].  [depth] is the number of nested calls that the
    interpreter still allows. *)
Fixpoint __repr__ (depth : nat) (self : ref) : method heap string :=
  match depth with
  | O => mraise RecursionError
  | S depth' =>
      scheduling <-- scheduling_text self ;;
      drawers <-- drawers_text self ;;
      body <-- body_text self ;;
      let body := abbreviate body in
      children <-- read _children self ;;
      children <-- match children with
                   | Some (c :: cs) =>
                       parts <-- mmap (__repr__ depth') (c :: cs) ;;
                       mret (String.concat "" parts)
                   | _ => mret ""
                   end ;;
      headline <-- read _headline self ;;
      headline <-- mlift (Headline.__repr__ headline) ;;
      mret (assemble headline scheduling drawers body children)
  end.

(** Modelled from the spec: the tokenizer and the tree assembly, which
    are not under [src/], as far as they say what the headings of a parsed
    document hold.  Each heading is constructed from its tuple: its
    headline, its scheduling and its drawers from their texts, so that
    each of them renders the text it was read from, and its body is the
    body text; without drawers there are no properties.  The headings
    below it are its children, in the order of the document. *)
Definition built_from (h : t) (tuple : Source.tokens) : Prop :=
  Headline.__repr__ (_headline h) = Ok (Source.headline_text tuple)
  /\ option_map (Scheduling.__repr__ stamps) (_scheduling h)
     = Source.scheduling_text tuple
  /\ match Source.drawer_block_texts tuple with
     | [] => truthy (_drawers h) = false /\ _properties h = []
     | blocks => _drawers h = Some (map Drawer.__init__ blocks)
     end
  /\ match Source.body_text tuple with
     | "" => body h = None \/ body h = Some ""
     | text => body h = Some text
     end.

Fixpoint parsed (s : heap) (d : Source.document) (r : ref) {struct d}
  : Prop :=
  match d with
  | Source.Node tuple below =>
      built_from (s r) tuple
      /\ exists children,
           match children with
           | [] => truthy (_children (s r)) = false
           | _ => _children (s r) = Some children
           end
           /\ (fix each (ds : list Source.document) (cs : list ref) : Prop :=
                 match ds, cs with
                 | [], [] => True
                 | d' :: ds', c :: cs' => parsed s d' c /\ each ds' cs'
                 | _, _ => False
                 end) below children
  end.

End Rendering.

End Heading.

(** ** Notions used in the statements *)

(** A repeater or a warning as it follows the times of a stamp. *)
Definition suffix (field : option string) : string :=
  match field with
  | None | Some "" => ""
  | Some s => " " ++ s
  end.

(** The minutes that [Clocking._display_delta] shows: the whole minutes of
    the delta, and one more when more than 30 seconds are left over. *)
Definition shown_minutes (time_delta : Datetime.timedelta) : Z :=
  let total_seconds :=
    Datetime.days time_delta * 24 * 3600 + Datetime.seconds time_delta in
  total_seconds / 60 + (if 30 <? total_seconds mod 60 then 1 else 0).

(** [a or b] on two values that are a stamp or [None]. *)
Definition first_set (a b : option Scheduling.loc) : option Scheduling.loc :=
  match a with
  | Some l => Some l
  | None => b
  end.

(** The merge of two [Scheduling] values, keyword by keyword. *)
Definition merged (self other : Scheduling.t) : Scheduling.t :=
  Scheduling.mk
    (first_set (Scheduling._closed self) (Scheduling._closed other))
    (first_set (Scheduling._scheduled self) (Scheduling._scheduled other))
    (first_set (Scheduling._deadline self) (Scheduling._deadline other)).

(** The duration of a clock as the specification words it: the elapsed
    seconds from the start to the end are converted to minutes, half a
    minute and more counting for a whole one, and the minutes are written
    as days, hours and minutes, without the days when there are none. *)
Definition elapsed_seconds (start finish : Datetime.datetime) : Z :=
  Datetime.timestamp finish - Datetime.timestamp start.

Definition half_up_minutes (seconds : Z) : Z := (seconds + 30) / 60.

Definition clock_text (minutes : Z) : string :=
  let days := minutes / 1440 in
  let hours := (minutes / 60) mod 24 in
  let minutes := minutes mod 60 in
  if days =? 0
  then str_of_int hours ++ ":" ++ zfill 2 minutes
  else str_of_int days ++ "d " ++ str_of_int hours ++ ":" ++ zfill 2 minutes.

(** Every character of a text passes a test. *)
Definition all_chars (P : ascii -> bool) (s : string) : bool :=
  forallb P (list_ascii_of_string s).

(** The characters of the text of an int: digits and the minus sign. *)
Definition plain_chr (c : ascii) : bool := is_digit c || Ascii.eqb c "-".

(** A stamp whose end time, when it has one, is not before its start. *)
Definition ordered (ts : TimeStamp.t) : Prop :=
  match TimeStamp.end_time ts with
  | Some e => Datetime.lt e (TimeStamp.start_time ts) = false
  | None => True
  end.

(** What assigning a stamp to a keyword of a [Scheduling] makes of the
    stamp. *)
Definition assigned_to (keyword : string) (ts : TimeStamp.t) : TimeStamp.t :=
  match keyword with
  | "closed" => TimeStamp.mk false (TimeStamp._start_time ts) None None None
  | "scheduled" =>
      TimeStamp.mk true (TimeStamp._start_time ts) (TimeStamp._end_time ts)
                   (TimeStamp._repeater ts) None
  | _ =>
      TimeStamp.mk true (TimeStamp._start_time ts) (TimeStamp._end_time ts)
                   (TimeStamp._repeater ts) (TimeStamp._deadline_warn ts)
  end.

(** No newline, respectively neither newline nor colon, in a text. *)
Definition one_line (s : string) : bool :=
  all_chars (fun c => negb (Ascii.eqb c "010")) s.

Definition plain_name (s : string) : bool :=
  all_chars (fun c => negb (Ascii.eqb c "010") && negb (Ascii.eqb c ":")) s.

(** The line of a property in the PROPERTIES drawer. *)
Definition property_line (item : string * string) : string :=
  ":" ++ fst item ++ ":" ++ repeat_chr " " 7 ++ snd item.

(** A list of nodes with one node taken out, as [remove_child] leaves
    it. *)
Definition without (x : Heading.ref) (l : list Heading.ref)
  : list Heading.ref :=
  filter (fun c => negb (Nat.eqb c x)) l.

(** ** Sample values *)

Module Examples.

Definition nine : Datetime.datetime := Datetime.mk 2024 1 1 9 0 0.
Definition half_past_ten : Datetime.datetime := Datetime.mk 2024 1 1 10 30 0.

(** The stamp from 09:00 to 10:30 on Monday 2024-01-01. *)
Definition meeting : TimeStamp.t :=
  TimeStamp.mk true nine (Some half_past_ten) None None.

(** Two stamps, at 1 and 2, and two values that each have the first of
    them, respectively the second, as their deadline. *)
Definition stamps : Scheduling.store := fun l =>
  TimeStamp.mk true (Datetime.mk 2024 1 (Z.of_nat l) 9 0 0) None None None.

Definition due_first : Scheduling.t := Scheduling.mk None None (Some 1%nat).
Definition due_second : Scheduling.t := Scheduling.mk None None (Some 2%nat).
Definition planned : Scheduling.t := Scheduling.mk None (Some 2%nat) None.

(** A heading with a title at a level, without anything else. *)
Definition plain (level : Z) (title : string) (body : option string)
    (children : option (list Heading.ref))
    (parent sibling : option Heading.ref) : Heading.t :=
  Heading.mk (Headline.mk level false None None title None None)
             None None body [] children parent sibling.

(** A document: the root at 0 holds A, D and E; A holds B and C; E holds
    F and G.  The sibling marker of a node is the node before it. *)
Definition outline : Heading.heap := fun r =>
  match r with
  | 0 => plain 0 "" None (Some [1; 4; 5]) None None
  | 1 => plain 1 "A" None (Some [2; 3]) (Some 0) None
  | 2 => plain 2 "B" None None (Some 1) None
  | 3 => plain 2 "C" None None (Some 1) (Some 2)
  | 4 => plain 1 "D" None None (Some 0) (Some 1)
  | 5 => plain 1 "E" None (Some [6; 7]) (Some 0) (Some 4)
  | 6 => plain 2 "F" None None (Some 5) None
  | 7 => plain 2 "G" None None (Some 5) (Some 6)
  | _ => plain 1 "" None None None None
  end%nat.

(** Links that do not agree: 1 names 0 as its parent, and 0 does not have
    1 among its children. *)
Definition stray : Heading.heap := fun r =>
  match r with
  | 0 => plain 0 "" None (Some [3]) None None
  | 1 => plain 1 "A" None (Some [2]) (Some 0) None
  | 2 => plain 2 "B" None None (Some 1) None
  | 3 => plain 1 "C" None None (Some 0) None
  | _ => plain 1 "" None None None None
  end%nat.

(** The headings of the first sample of the round trip test. *)
Definition calculation : Heading.heap := fun r =>
  match r with
  | 0 => plain 1 "Calculation TODO" None (Some [1; 2]) None None
  | 1 => plain 2 "Input" (Some "3+4+5+6") None (Some 0) None
  | 2 => plain 2 "Evaluation" None None (Some 0) (Some 1)
  | _ => plain 1 "" None None None None
  end%nat.


(** The text that [calculation] was read from, as the test and the
    specification give it. *)
Definition calculation_source : Source.document :=
  Source.Node (Source.mk "* Calculation TODO" None [] "")
    [Source.Node (Source.mk "** Input" None [] "3+4+5+6") [];
     Source.Node (Source.mk "** Evaluation" None [] "") []].

(** A document whose headings all have a cookie or tags on the headline
    and a scheduling line or body text under it. *)
Definition plan_source : Source.document :=
  Source.Node (Source.mk "* Plan [1/2]" None [] "Two steps.")
    [Source.Node (Source.mk "** Draft [1/1]" None [] "3+4+5+6") [];
     Source.Node (Source.mk "** Review     :work:"
                    (Some "SCHEDULED: <2024-01-02 Tue 09:00>") [] "") []].





(** One heading with a cookie, a LOGBOOK drawer and a body, and the text
    it was read from. *)
Definition logged_source : Source.document :=
  Source.Node
    (Source.mk "* Report [1/2]" None
       [":LOGBOOK:" ++ nl ++ "CLOCK: [2024-01-01 Mon 09:00]" ++ nl
        ++ ":END:" ++ nl]
       "Done.") [].

Definition logged : Heading.heap := fun r =>
  match r with
  | 0 => Heading.mk
           (Headline.mk 1 false None None "Report"
              (Some (Cookie.mk (Some "progress") 1 2)) None)
           None
           (Some [Drawer.mk "LOGBOOK" ["CLOCK: [2024-01-01 Mon 09:00]"]])
           (Some "Done.") [] None None None
  | _ => plain 1 "" None None None None
  end%nat.

(** The document [outline] and one more heading, 8, that is in no list
    of children and has D as its sibling marker. *)
Definition loose : Heading.heap := fun r =>
  match r with
  | 8 => plain 1 "H" None None (Some 0) (Some 4)
  | _ => outline r
  end%nat.

(** The same, and a heading, 9, that holds the list of children of A as
    its own: one list object under two headings. *)
Definition shared : Heading.heap := fun r =>
  match r with
  | 9 => plain 1 "I" None (Some [2; 3]) None None
  | _ => loose r
  end%nat.

(** A heading with two properties, whose PROPERTIES drawer is out of
    date, and a LOGBOOK. *)
Definition filed : Heading.heap := fun r =>
  match r with
  | 0 =>
      Heading.mk (Headline.mk 1 false None None "Report" None None) None
        (Some [Drawer.mk "PROPERTIES" [":ID:       41"];
               Drawer.mk "LOGBOOK" ["CLOCK: [2024-01-01 Mon 09:00]"]])
        None [("ID", "42"); ("OWNER", "ann")] None None None
  | _ => plain 1 "" None None None None
  end%nat.

End Examples.

(** * Properties *)

(** ** Priority *)

Section PriorityFacts.

Import Priority.

Lemma allowed_cases (p : t) :
  In (priority p) allowed_values ->
  p = mk "A" \/ p = mk "B" \/ p = mk "C".
Proof.
  destruct p as [v]; cbn.
  intros [H | [H | [H | []]]]; subst; auto.
Qed.

(** C9.  On a priority that holds an allowed value, [_raise] and [_lower]
    never fail and move to the neighbour in ['A', 'B', 'C'], the index
    taken modulo the length of the list: raising ['C'] gives ['A'],
    lowering ['A'] gives ['C'], and each of the two undoes the other. *)
Theorem priority_raise_lower_cycle (p : t) :
  In (priority p) allowed_values ->
  exists up down idx,
    _raise p = (Ok tt, up) /\ _lower p = (Ok tt, down)
    /\ str_index (priority p) allowed_values = Ok idx
    /\ str_index (priority up) allowed_values = Ok ((idx + 1) mod 3)
    /\ str_index (priority down) allowed_values = Ok ((idx - 1) mod 3)
    /\ _lower up = (Ok tt, p) /\ _raise down = (Ok tt, p)
    /\ (priority p = "C" -> priority up = "A")
    /\ (priority p = "A" -> priority down = "C").
Proof.
  intros H.
  destruct (allowed_cases p H) as [-> | [-> | ->]].
  - exists (mk "B"), (mk "C"), 0.
    repeat split; try reflexivity; discriminate.
  - exists (mk "C"), (mk "A"), 1.
    repeat split; try reflexivity; discriminate.
  - exists (mk "A"), (mk "B"), 2.
    repeat split; reflexivity || discriminate.
Qed.

Lemma priority_raise_lower_cycle_witness :
  exists up down idx,
    _raise (mk "C") = (Ok tt, up) /\ _lower (mk "C") = (Ok tt, down)
    /\ str_index (priority (mk "C")) allowed_values = Ok idx
    /\ str_index (priority up) allowed_values = Ok ((idx + 1) mod 3)
    /\ str_index (priority down) allowed_values = Ok ((idx - 1) mod 3)
    /\ _lower up = (Ok tt, mk "C") /\ _raise down = (Ok tt, mk "C")
    /\ (priority (mk "C") = "C" -> priority up = "A")
    /\ (priority (mk "C") = "A" -> priority down = "C").
Proof.
  apply (priority_raise_lower_cycle (mk "C")).
  simpl. auto.
Defined.

End PriorityFacts.

(** ** Cookie *)

Section CookieFacts.

Import Cookie.

(** The setters refuse a bound that would leave [m] above [n] and store any
    other int. *)
Lemma cookie_set_m_refuses (c : t) (v : Z) :
  n c < v -> set_m (VInt v) c = (Raise ValueError, c).
Proof.
  intros H. unfold set_m.
  destruct (Z.ltb_spec (n c) v); [reflexivity | lia].
Qed.

Lemma cookie_set_m_stores (c : t) (v : Z) :
  v <= n c -> set_m (VInt v) c = (Ok tt, mk (_cookie_type c) v (_n c)).
Proof.
  intros H. unfold set_m.
  destruct (Z.ltb_spec (n c) v); [lia | reflexivity].
Qed.

Lemma cookie_set_n_refuses (c : t) (v : Z) :
  v < m c -> set_n (VInt v) c = (Raise ValueError, c).
Proof.
  intros H. unfold set_n.
  destruct (Z.ltb_spec v (m c)); [reflexivity | lia].
Qed.

Lemma cookie_set_n_stores (c : t) (v : Z) :
  m c <= v -> set_n (VInt v) c = (Ok tt, mk (_cookie_type c) (_m c) v).
Proof.
  intros H. unfold set_n.
  destruct (Z.ltb_spec v (m c)); [lia | reflexivity].
Qed.

(** Construction from a text within the bounds stores them, and a progress
    cookie above its bound is refused with a [ValueError]. *)
Example cookie_init_in_bounds :
  __init__ "[2/5]" = Ok (mk (Some "progress") 2 5)
  /\ __init__ "[40%]" = Ok (mk (Some "percent") 40 100)
  /\ __init__ "[5/2]" = Raise ValueError.
Proof. repeat split; reflexivity. Qed.

(** C8.  Constructing a cookie from ["[150%]"] fails, but not with the
    [ValueError] that the last statement of [__init__] sets out to raise:
    its message names [m] and [n], which the percent branch never binds,
    so the failure is an [UnboundLocalError]. *)
Theorem cookie_init_percent_over_100 :
  __init__ "[150%]" = Raise UnboundLocalError.
Proof. reflexivity. Qed.

End CookieFacts.

(** ** Headline *)

Section HeadlineFacts.

Import Headline.

Variables _todo_states _done_states : list string.

Lemma is_done_accepted (h : t) :
  accepted _todo_states _done_states (todo h) = true ->
  is_done _todo_states _done_states h
  = Ok (kw_in (todo h) _done_states).
Proof.
  unfold accepted, is_done.
  destruct (todo h) as [s |]; simpl; [| reflexivity].
  destruct (str_in s _done_states); [reflexivity |].
  rewrite orb_false_r. intros ->. reflexivity.
Qed.

(** C2.  Assigning an accepted keyword to [todo] stores it, and [done] read
    afterwards tells whether it is a done state; but the assignment itself
    ends in the [AttributeError] of the setter of [done], to which the
    setter of [todo] assigns the outcome of its check. *)
Theorem headline_set_todo_raises (h : t) (value : option string) :
  accepted _todo_states _done_states value = true ->
  set_todo _todo_states _done_states value h
  = (Raise AttributeError, with_todo value h)
  /\ done _todo_states _done_states (with_todo value h)
     = Ok (kw_in value _done_states).
Proof.
  intros H.
  assert (D : is_done _todo_states _done_states (with_todo value h)
              = Ok (kw_in value _done_states))
    by (apply (is_done_accepted (with_todo value h)); exact H).
  split; [| exact D].
  unfold set_todo.
  replace (negb (kw_in value _todo_states) && negb (kw_in value _done_states)
           && match value with None => false | Some _ => true end)
    with false.
  - rewrite D. reflexivity.
  - destruct value as [s |]; simpl in *.
    + destruct (str_in s _todo_states), (str_in s _done_states);
        simpl in *; congruence.
    + reflexivity.
Qed.

(** A keyword of neither set is refused and nothing is stored; [done]
    cannot be assigned. *)
Lemma headline_set_todo_refuses (h : t) (s : string) :
  accepted _todo_states _done_states (Some s) = false ->
  set_todo _todo_states _done_states (Some s) h = (Raise TypeError, h).
Proof.
  unfold accepted, set_todo, kw_in. intros H.
  apply orb_false_elim in H. destruct H as [-> ->]. reflexivity.
Qed.

Lemma headline_set_done_raises (h : t) (b : bool) :
  set_done b h = (Raise AttributeError, h).
Proof. reflexivity. Qed.

End HeadlineFacts.

Lemma headline_set_todo_raises_witness :
  Headline.set_todo ["TODO"] ["DONE"] (Some "DONE")
    (Headline.mk 1 false None None "Write report" None None)
  = (Raise AttributeError,
     Headline.mk 1 false (Some "DONE") None "Write report" None None)
  /\ Headline.done ["TODO"] ["DONE"]
       (Headline.mk 1 false (Some "DONE") None "Write report" None None)
     = Ok true.
Proof.
  apply (headline_set_todo_raises ["TODO"] ["DONE"]
           (Headline.mk 1 false None None "Write report" None None)
           (Some "DONE")).
  reflexivity.
Defined.

(** ** TimeStamp *)

Section TimeStampFacts.

Import Datetime TimeStamp.

Lemma append_assoc (a b c : string) : (a ++ b) ++ c = a ++ (b ++ c).
Proof. induction a as [| x a IH]; simpl; [reflexivity | now rewrite IH]. Qed.

Lemma append_nil_r (a : string) : a ++ "" = a.
Proof. induction a as [| x a IH]; simpl; [reflexivity | now rewrite IH]. Qed.

(** The shape of the text of a stamp that has an end time: the bracket of
    its kind, the start, a dash, the end as hour, dash, minute, then the
    repeater and the warning. *)
Lemma timestamp_repr_with_end (ts : t) (e : datetime) :
  end_time ts = Some e ->
  __repr__ ts
  = (if active ts then "<" else "[")
    ++ strftime ORG_TIME_FORMAT (start_time ts)
    ++ "-" ++ zfill 2 (hour e) ++ "-" ++ zfill 2 (minute e)
    ++ suffix (repeater ts) ++ suffix (deadline_warn ts)
    ++ (if active ts then ">" else "]").
Proof.
  intros H. unfold __repr__. rewrite H.
  f_equal.
  replace (strftime "%H-%M" e) with (zfill 2 (hour e) ++ "-" ++ zfill 2 (minute e))
    by (cbn [strftime directive]; now rewrite append_nil_r).
  destruct (repeater ts) as [[| c r] |], (deadline_warn ts) as [[| c' w] |];
    cbn [suffix]; repeat rewrite append_assoc; repeat rewrite append_nil_r;
    reflexivity.
Qed.

Example meeting_from_text :
  _to_datetime [Some "2024-01-01"; Some "Mon"; Some "09:00"] = Ok Examples.nine
  /\ _to_datetime [Some "2024-01-01"; Some "Mon"; Some "10:30"]
     = Ok Examples.half_past_ten.
Proof. split; reflexivity. Qed.

(** C4.  The active stamp from 09:00 to 10:30 on 2024-01-01 is rendered
    with a dash between the hour and the minute of its end, where the
    text it was read from has a colon. *)
Theorem timestamp_repr_end_time_dash :
  __repr__ Examples.meeting = "<2024-01-01 Mon 09:00-10-30>".
Proof. reflexivity. Qed.

End TimeStampFacts.

(** ** Clocking *)

Section ClockingFacts.

Import Datetime Clocking.

Lemma Qfloor_div_pos (q : Q) (k : positive) :
  Qfloor (q / (Zpos k # 1)) = Qfloor q / Zpos k.
Proof.
  destruct q as [n d].
  unfold Qdiv, Qinv, Qmult, Qfloor; simpl.
  rewrite Z.mul_1_r, Pos2Z.inj_mul.
  symmetry. apply Z.div_div; lia.
Qed.

Lemma Qfloor_plus_1 (q : Q) : Qfloor (q + 1) = Qfloor q + 1.
Proof.
  destruct q as [n d].
  unfold Qplus, Qfloor; simpl.
  rewrite Pos.mul_1_r, Z.mul_1_r.
  replace (n + Zpos d) with (n + 1 * Zpos d) by lia.
  apply Z.div_add. lia.
Qed.

Lemma Qfloor_fmod (q : Q) (k : positive) :
  Qfloor (fmod q (Zpos k # 1)) = Qfloor q mod Zpos k.
Proof.
  unfold fmod. rewrite Qfloor_div_pos.
  destruct q as [n d].
  unfold Qminus, Qplus, Qopp, Qmult, inject_Z, Qfloor; cbn [Qnum Qden].
  rewrite !Pos.mul_1_r, !Z.mul_1_r.
  set (f := n / Zpos d / Zpos k).
  replace (n + - (Zpos k * f) * Zpos d) with (n + (- (Zpos k * f)) * Zpos d)
    by lia.
  rewrite Z.div_add by lia.
  rewrite (Z.mod_eq (n / Zpos d) (Zpos k)) by lia.
  subst f. lia.
Qed.

(** [_display_delta] splits these minutes into days, hours and minutes
    and leaves the days out when there are none. *)
Lemma clocking_display_delta_split (time_delta : timedelta) :
  let m := shown_minutes time_delta in
  _display_delta time_delta
  = if m / 1440 =? 0
    then str_of_int (m / 60 mod 24) ++ ":" ++ zfill 2 (m mod 60)
    else str_of_int (m / 1440) ++ "d " ++ str_of_int (m / 60 mod 24)
         ++ ":" ++ zfill 2 (m mod 60).
Proof.
  unfold _display_delta, shown_minutes. cbv zeta.
  set (total := days time_delta * 24 * 3600 + seconds time_delta).
  set (q := if 30 <? total mod 60 then (inject_Z total / 60 + 1)%Q
            else (inject_Z total / 60)%Q).
  assert (F : Qfloor q
              = total / 60 + (if 30 <? total mod 60 then 1 else 0)).
  { subst q. destruct (30 <? total mod 60).
    - rewrite Qfloor_plus_1, Qfloor_div_pos, Qfloor_Z. reflexivity.
    - rewrite Qfloor_div_pos, Qfloor_Z. lia. }
  rewrite !Qfloor_fmod, !Qfloor_div_pos, F.
  rewrite Z.div_div by lia.
  reflexivity.
Qed.

Example clocking_duration_example :
  Clocking.__init__ "2024-01-01 Mon 09:00" (Some "2024-01-01 Mon 10:31")
  = Ok (mk Examples.nine (Some (Datetime.mk 2024 1 1 10 31 0)))
  /\ duration Examples.nine
       (mk Examples.nine (Some (Datetime.mk 2024 1 1 10 31 0))) = "1:31".
Proof. split; reflexivity. Qed.

Lemma clocking_set_duration_raises (c : t) (v : value) :
  set_duration v c = (Raise TypeError, c).
Proof. reflexivity. Qed.

(** *** What [strptime] leaves of the seconds *)













(** In the sample of the specification this is 1:31. *)
Example clocking_duration_sample :
  clock_text
    (half_up_minutes
       (elapsed_seconds Examples.nine (Datetime.mk 2024 1 1 10 31 0)))
  = "1:31".
Proof. reflexivity. Qed.

(** A clock without an end is measured against the time of the call, which
    has seconds: a minute and exactly 30 seconds are shown as one minute,
    the left-over seconds counting only when they are more than 30. *)
Example clocking_duration_open_half_minute :
  duration (Datetime.mk 2024 1 1 9 1 30) (mk Examples.nine None) = "0:01".
Proof. reflexivity. Qed.

End ClockingFacts.

(** ** Scheduling *)

Section SchedulingFacts.

Import Scheduling.

(** Assigning a stamp or [None] to a keyword never fails. *)
Lemma scheduling_set_ok (keyword : string) (obj : t) (a b : option loc)
    (st : store) :
  exists st', __set__ keyword obj (or_ a b) st
              = (Ok (put obj keyword (first_set a b)), st').
Proof.
  destruct a as [l |]; [| destruct b as [l |]]; cbn [or_ first_set __set__];
    try (eexists; reflexivity).
  all: unfold mbind, on_stamp, mret;
    destruct (String.eqb keyword "closed"),
             (String.eqb keyword "scheduled"),
             (String.eqb keyword "deadline");
    cbn; eexists; reflexivity.
Qed.

(** When the two operands do not both have [closed] set, [__add__] returns
    the merge, whatever the other keywords hold. *)
Lemma scheduling_add_returns (self other : t) (st : store) :
  is_set (_closed self) && is_set (_closed other) = false ->
  exists st', __add__ self other st = (Ok (Return (merged self other)), st').
Proof.
  intros H. unfold __add__, valid_keywords.
  cbn [for_return]. unfold mbind at 1.
  cbn [getattr]. rewrite H.
  cbn [fold_left].
  destruct (scheduling_set_ok "closed" empty
              (getattr self "closed") (getattr other "closed") st)
    as [st1 E1].
  rewrite E1.
  destruct (scheduling_set_ok "scheduled"
              (put empty "closed"
                 (first_set (getattr self "closed") (getattr other "closed")))
              (getattr self "scheduled") (getattr other "scheduled") st1)
    as [st2 E2].
  rewrite E2.
  match goal with
  | |- context [__set__ "deadline" ?o (or_ ?a ?b) st2] =>
      destruct (scheduling_set_ok "deadline" o a b st2) as [st3 E3]
  end.
  rewrite E3.
  exists st3. reflexivity.
Qed.

(** When both have [closed] set, it raises. *)
Lemma scheduling_add_raises (self other : t) (st : store) :
  is_set (_closed self) && is_set (_closed other) = true ->
  __add__ self other st = (Raise ValueError, st).
Proof.
  intros H. unfold __add__, valid_keywords.
  cbn [for_return]. unfold mbind at 1.
  cbn [getattr]. rewrite H. reflexivity.
Qed.

(** C3.  Merging two values that both have [deadline] set, and not both
    [closed], does not fail: the loop of [__add__] returns in its first
    round, after the check for [closed] alone, and the result takes the
    deadline of the left operand. *)
Theorem scheduling_add_both_deadline (self other : t) (st : store)
    (d1 d2 : loc) :
  _deadline self = Some d1 ->
  _deadline other = Some d2 ->
  is_set (_closed self) && is_set (_closed other) = false ->
  exists result st',
    __add__ self other st = (Ok (Return result), st')
    /\ _deadline result = Some d1.
Proof.
  intros H1 H2 H.
  destruct (scheduling_add_returns self other st H) as [st' E].
  exists (merged self other), st'. split; [exact E |].
  unfold merged; cbn. rewrite H1. reflexivity.
Qed.

Lemma scheduling_add_both_deadline_witness :
  exists result st',
    __add__ Examples.due_first Examples.due_second Examples.stamps
    = (Ok (Return result), st')
    /\ _deadline result = Some 1%nat.
Proof.
  apply (scheduling_add_both_deadline Examples.due_first Examples.due_second
           Examples.stamps 1%nat 2%nat); reflexivity.
Defined.

(** Merging a value that has only [scheduled] with one that has only
    [deadline] gives a value that shows both. *)
Example scheduling_add_disjoint :
  exists st',
    __add__ Examples.planned Examples.due_first Examples.stamps
    = (Ok (Return (mk None (Some 2%nat) (Some 1%nat))), st')
    /\ __repr__ st' (mk None (Some 2%nat) (Some 1%nat))
       = "SCHEDULED: <2024-01-02 Tue 09:00> DEADLINE: <2024-01-01 Mon 09:00>".
Proof. eexists. split; reflexivity. Qed.

End SchedulingFacts.

(** ** Heading: the tree *)

Section HeadingFacts.

Import Heading.

Lemma upd_same (s : heap) (r : ref) (v : t) : upd s r v r = v.
Proof. unfold upd. now rewrite Nat.eqb_refl. Qed.

Lemma upd_other (s : heap) (r r' : ref) (v : t) :
  r' <> r -> upd s r v r' = s r'.
Proof. unfold upd. intros H. apply Nat.eqb_neq in H. now rewrite H. Qed.

Lemma with_children_same (h : t) (l : option (list ref)) :
  _children h = l -> with_children l h = h.
Proof. destruct h; cbn; intros <-; reflexivity. Qed.

Lemma bind_ok {A B} (m : method heap A) (k : A -> method heap B)
    (s s1 : heap) (a : A) :
  m s = (Ok a, s1) -> mbind m k s = k a s1.
Proof. unfold mbind. now intros ->. Qed.

Lemma bind_raise {A B} (m : method heap A) (k : A -> method heap B)
    (s s1 : heap) (e : exn) :
  m s = (Raise e, s1) -> mbind m k s = (Raise e, s1).
Proof. unfold mbind. now intros ->. Qed.

(** The loop that hands a list of nodes to a new parent. *)
Lemma reparent_loop (v : option ref) (l : list ref) (s : heap) :
  exists s',
    for_each l (fun x => set_parent x v) s = (Ok tt, s')
    /\ (forall r, ~ In r l -> s' r = s r)
    /\ (forall r, In r l -> _parent (s' r) = v).
Proof.
  revert s. induction l as [| x l IH]; intros s.
  - exists s. cbn. repeat split; intros r []; auto.
  - destruct (IH (upd s x (with_parent v (s x)))) as (s' & E & Hout & Hin).
    exists s'. split; [| split].
    + cbn [for_each]. erewrite bind_ok by reflexivity. exact E.
    + intros r Hr. rewrite Hout by (intros C; apply Hr; now right).
      apply upd_other. intros ->. apply Hr. now left.
    + intros r [-> | Hr].
      * destruct (in_dec Nat.eq_dec r l) as [Hl | Hl]; [now apply Hin |].
        rewrite Hout by exact Hl. now rewrite upd_same.
      * now apply Hin.
Qed.

(** [remove_child] on a node whose children are a list. *)
Lemma remove_child_spec (p x : ref) (cs : list ref) (s : heap) :
  _children (s p) = Some cs ->
  exists s',
    remove_child p x s = (Ok tt, s')
    /\ s' p = with_children
                (Some (filter (fun c => negb (Nat.eqb c x)) cs)) (s p)
    /\ (forall r, r <> p -> s' r = s r).
Proof.
  intros H. unfold remove_child.
  erewrite bind_ok by reflexivity. rewrite H.
  destruct cs as [| c cs].
  - exists s. cbn. repeat split.
    symmetry. now apply with_children_same.
  - eexists. split; [reflexivity |]. split.
    + now rewrite upd_same.
    + intros r Hr. now apply upd_other.
Qed.

(** The loop that takes a list of nodes out of the children of the node
    that the sibling marker of [self] points at. *)
Lemma remove_loop (self p : ref) (l cs : list ref) (s : heap) :
  self <> p ->
  _sibling (s self) = Some p ->
  _children (s p) = Some cs ->
  exists s' cs',
    for_each l (fun x =>
      sibling <-- read _sibling self ;;
      call sibling (fun r => remove_child r x)) s = (Ok tt, s')
    /\ s' p = with_children (Some cs') (s p)
    /\ (forall c, In c cs' <-> In c cs /\ ~ In c l)
    /\ (forall r, r <> p -> s' r = s r).
Proof.
  intros Hne. revert s cs. induction l as [| x l IH]; intros s cs Hs Hc.
  - exists s, cs. cbn. repeat split; try tauto.
    symmetry. now apply with_children_same.
  - destruct (remove_child_spec p x cs s Hc) as (s1 & E1 & P1 & O1).
    destruct (IH s1 (filter (fun c => negb (Nat.eqb c x)) cs))
      as (s' & cs' & E & P & I & O).
    { rewrite O1 by exact Hne. exact Hs. }
    { rewrite P1. reflexivity. }
    exists s', cs'. split; [| split; [| split]].
    + cbn [for_each]. erewrite bind_ok; [exact E |].
      erewrite bind_ok by reflexivity. rewrite Hs. exact E1.
    + rewrite P, P1. reflexivity.
    + intros c. rewrite I, filter_In, negb_true_iff, Nat.eqb_neq.
      cbn [In]. intuition congruence.
    + intros r Hr. rewrite O by exact Hr. now apply O1.
Qed.

(** C5, the part that holds.  A promotion that is refused because the node
    has children, and a demotion that is refused because the node has no
    sibling marker, raise before anything is assigned: the heap is the one
    before the call. *)
Theorem heading_refusals_leave_heap (s : heap) (self : ref) :
  (truthy (_children (s self)) = true ->
   promote self s = (Raise TypeError, s))
  /\ (_sibling (s self) = None ->
      demote self s = (Raise ValueError, s)).
Proof.
  split; intros H.
  - unfold promote. erewrite bind_ok by reflexivity. now rewrite H.
  - unfold demote. erewrite bind_ok by reflexivity. now rewrite H.
Qed.

End HeadingFacts.

Section PromoteFacts.

Import Heading.

Lemma index_from_split (l : list ref) (x : ref) (i idx : Z) :
  index_from l x i = Ok idx ->
  0 <= idx - i
  /\ exists before,
       l = (before ++ x :: skipn (Z.to_nat (idx - i + 1)) l)%list.
Proof.
  revert i. induction l as [| y l IH]; intros i; cbn [index_from];
    [discriminate |].
  destruct (Nat.eqb_spec y x) as [-> | Hne].
  - intros [= <-]. split; [lia |]. exists [].
    replace (i - i + 1) with 1 by lia. reflexivity.
  - intros H. destruct (IH _ H) as (Hle & before & E).
    split; [lia |]. exists (y :: before).
    replace (Z.to_nat (idx - i + 1)) with (S (Z.to_nat (idx - (i + 1) + 1)))
      by lia.
    cbn [skipn app]. now rewrite <- E.
Qed.

(** In a list without repetitions, an element does not come again after
    its index. *)
Lemma not_after_index (l : list ref) (x : ref) (idx : Z) :
  NoDup l ->
  index_from l x 0 = Ok idx ->
  ~ In x (skipn (Z.to_nat (idx + 1)) l).
Proof.
  intros N H. destruct (index_from_split l x 0 idx H) as (_ & before & E).
  rewrite Z.sub_0_r in E.
  rewrite E in N. apply NoDup_remove_2 in N.
  intros C. apply N, in_or_app. now right.
Qed.

Lemma in_skipn (l : list ref) (x : ref) (n : nat) :
  In x (skipn n l) -> In x l.
Proof.
  intros H. rewrite <- (firstn_skipn n l). apply in_or_app. now right.
Qed.

(** The first block of [promote]: the nodes that follow are handed to
    their new parent. *)
Lemma adopt_block (self : ref) (l : list ref) (s : heap) :
  exists s',
    match l with
    | first :: _ =>
        _ <-- set_sibling first None ;;
        for_each l (fun x => set_parent x (Some self))
    | [] => mret tt
    end s = (Ok tt, s')
    /\ (forall r, ~ In r l -> s' r = s r)
    /\ (forall r, In r l -> _parent (s' r) = Some self).
Proof.
  destruct l as [| first rest].
  - exists s. cbn. repeat split; intros r []; auto.
  - destruct (reparent_loop (Some self) (first :: rest)
                (upd s first (with_sibling None (s first))))
      as (s' & E & Hout & Hin).
    exists s'. split; [| split].
    + erewrite bind_ok by reflexivity. exact E.
    + intros r Hr. rewrite Hout by exact Hr.
      apply upd_other. intros ->. apply Hr. now left.
    + exact Hin.
Qed.

(** C10.  Take a node without children in a tree: it stands once among
    the children of its parent, and the parent, which is not among its own
    children, has no parent.  Promoting the node raises [AttributeError],
    and raises it at the very end: by then the level of the node is
    lowered by one and not below 1, the nodes that followed it are its
    children and have it as their parent, the parent has lost the node and
    those that followed it, and the node has no parent. *)
Theorem heading_promote_below_root (s : heap) (self p : ref)
    (siblings : list ref) (idx : Z) :
  truthy (_children (s self)) = false ->
  _parent (s self) = Some p ->
  _parent (s p) = None ->
  _children (s p) = Some siblings ->
  NoDup siblings ->
  ~ In p siblings ->
  index_from siblings self 0 = Ok idx ->
  let following := skipn (Z.to_nat (idx + 1)) siblings in
  exists s',
    promote self s = (Raise AttributeError, s')
    /\ level s' self = Z.max (level s self - 1) 1
    /\ _parent (s' self) = None
    /\ _children (s' self) = Some following
    /\ (forall x, In x following -> _parent (s' x) = Some self)
    /\ (exists rest,
          _children (s' p) = Some rest
          /\ forall c, In c rest <->
                       In c siblings /\ c <> self /\ ~ In c following).
Proof.
  intros Hc Hp Hg Hs Hdup Hnp Hi following.
  assert (Hn1 : ~ In self following) by now apply not_after_index.
  assert (Hn2 : ~ In p following)
    by (intros C; apply Hnp; eapply in_skipn; exact C).
  assert (Hne : self <> p) by (intros ->; congruence).
  unfold promote.
  erewrite bind_ok by reflexivity. rewrite Hc.
  erewrite bind_ok by reflexivity.
  set (s1 := upd s self _).
  erewrite bind_ok by reflexivity.
  erewrite bind_ok by reflexivity.
  set (s2 := upd s1 self _).
  assert (S2self : s2 self
                   = with_sibling (Some p)
                       (with_headline
                          (Headline.with_level (Z.max (level s self - 1) 1)
                             (_headline (s self)))
                          (s self))).
  { subst s2 s1. rewrite !upd_same. cbn. rewrite Hp. reflexivity. }
  assert (S2o : forall r, r <> self -> s2 r = s r).
  { intros r Hr. subst s2 s1. now rewrite !upd_other. }
  clearbody s2. clear s1.
  erewrite bind_ok by reflexivity.
  rewrite S2self. cbn [_sibling with_sibling].
  erewrite bind_ok by reflexivity.
  rewrite (S2o p) by auto. rewrite Hs.
  erewrite bind_ok by (unfold mlift; cbn [index]; rewrite Hi; reflexivity).
  fold following.
  destruct (adopt_block self following s2) as (s3 & E3 & O3 & I3).
  erewrite bind_ok by exact E3.
  erewrite bind_ok by reflexivity.
  set (s4 := upd s3 self _).
  assert (S4self : s4 self = with_children (Some following) (s2 self)).
  { subst s4. rewrite upd_same, (O3 self) by exact Hn1. reflexivity. }
  assert (S4o : forall r, r <> self -> s4 r = s3 r).
  { intros r Hr. subst s4. now rewrite upd_other. }
  clearbody s4.
  erewrite bind_ok by reflexivity.
  rewrite S4self, S2self. cbn [_sibling with_sibling with_children].
  cbn [call].
  assert (C4 : _children (s4 p) = Some siblings).
  { rewrite S4o, O3, S2o by auto. exact Hs. }
  destruct (remove_child_spec p self siblings s4 C4) as (s5 & E5 & P5 & O5).
  erewrite bind_ok by exact E5.
  destruct (remove_loop self p following
              (filter (fun c => negb (Nat.eqb c self)) siblings) s5)
    as (s6 & cs' & E6 & P6 & I6 & O6).
  { exact Hne. }
  { rewrite O5, S4self, S2self by exact Hne. reflexivity. }
  { rewrite P5. reflexivity. }
  erewrite bind_ok by exact E6.
  assert (S6self : s6 self = s4 self).
  { rewrite O6, O5 by exact Hne. reflexivity. }
  assert (S6p : _parent (s6 p) = None).
  { rewrite P6, P5. cbn. rewrite S4o, O3, S2o by auto. exact Hg. }
  erewrite bind_ok by reflexivity.
  rewrite S6self, S4self, S2self.
  cbn [_parent with_children with_sibling with_headline].
  rewrite Hp. cbn [attr].
  erewrite bind_ok by reflexivity. rewrite S6p.
  erewrite bind_ok by reflexivity.
  set (s7 := upd s6 self _).
  erewrite bind_ok by reflexivity.
  assert (S7self : s7 self = with_parent None (s4 self)).
  { subst s7. rewrite upd_same, S6self. reflexivity. }
  assert (S7o : forall r, r <> self -> s7 r = s6 r).
  { intros r Hr. subst s7. now rewrite upd_other. }
  rewrite S7self. cbn [_parent with_parent call].
  exists s7. split; [reflexivity |].
  unfold level. rewrite S7self, S4self, S2self. cbn.
  repeat split.
  - intros x Hx.
    assert (x <> self) by (intros ->; contradiction).
    assert (x <> p) by (intros ->; contradiction).
    rewrite S7o, O6, O5, S4o by assumption. now apply I3.
  - exists cs'. split.
    + rewrite S7o, P6 by auto. reflexivity.
    + intros c. rewrite I6, filter_In, negb_true_iff, Nat.eqb_neq. tauto.
Qed.

End PromoteFacts.

Section DemoteFacts.

Import Heading.

Lemma bind_inv {A B} (m : method heap A) (k : A -> method heap B)
    (s s' : heap) (b : B) :
  mbind m k s = (Ok b, s') ->
  exists a s1, m s = (Ok a, s1) /\ k a s1 = (Ok b, s').
Proof.
  unfold mbind. destruct (m s) as [[a | e] s1]; [eauto | discriminate].
Qed.

Lemma parent_upd_children (s : heap) (r x : ref) (v : option (list ref)) :
  _parent (upd s r (with_children v (s r)) x) = _parent (s x).
Proof. unfold upd. destruct (Nat.eqb_spec x r) as [-> |]; reflexivity. Qed.

Lemma sibling_upd_children (s : heap) (r x : ref) (v : option (list ref)) :
  _sibling (upd s r (with_children v (s r)) x) = _sibling (s x).
Proof. unfold upd. destruct (Nat.eqb_spec x r) as [-> |]; reflexivity. Qed.

Lemma sibling_upd_parent (s : heap) (r x : ref) (v : option ref) :
  _sibling (upd s r (with_parent v (s r)) x) = _sibling (s x).
Proof. unfold upd. destruct (Nat.eqb_spec x r) as [-> |]; reflexivity. Qed.

Lemma children_upd_parent (s : heap) (r x : ref) (v : option ref) :
  _children (upd s r (with_parent v (s r)) x) = _children (s x).
Proof. unfold upd. destruct (Nat.eqb_spec x r) as [-> |]; reflexivity. Qed.

Lemma children_upd_sibling (s : heap) (r x : ref) (v : option ref) :
  _children (upd s r (with_sibling v (s r)) x) = _children (s x).
Proof. unfold upd. destruct (Nat.eqb_spec x r) as [-> |]; reflexivity. Qed.

Lemma parent_upd_sibling (s : heap) (r x : ref) (v : option ref) :
  _parent (upd s r (with_sibling v (s r)) x) = _parent (s x).
Proof. unfold upd. destruct (Nat.eqb_spec x r) as [-> |]; reflexivity. Qed.

(** A successful [add_child] leaves the new child among the children of the
    parent, next to those that were there. *)
Lemma add_child_inv (parent child : ref) (s s2 : heap) :
  add_child parent child false s = (Ok tt, s2) ->
  exists cl,
    s2 = upd s parent (with_children (Some cl) (s parent))
    /\ In child cl
    /\ (forall x cl0, _children (s parent) = Some cl0 -> In x cl0 -> In x cl).
Proof.
  unfold add_child, add_child_sharing. erewrite bind_ok by reflexivity. cbn beta iota.
  destruct (_children (s parent)) as [[| c cs] |] eqn:C.
  - intros [= <-]. exists [child]. repeat split; [now left |].
    intros x cl0 [= <-] [].
  - erewrite bind_ok by reflexivity.
    destruct (_sibling (s child)) as [sb |].
    + destruct (index_from (c :: cs) sb 0) as [i | e]; [| discriminate].
      intros [= <-]. eexists. split; [reflexivity |]. split.
      * apply in_or_app. right. now left.
      * intros x cl0 [= <-] Hx.
        rewrite <- (firstn_skipn (Z.to_nat (i + 1)) (c :: cs)) in Hx.
        apply in_app_or in Hx. apply in_or_app.
        destruct Hx; [now left | right; now right].
    + intros [= <-]. eexists. split; [reflexivity |]. split; [now left |].
      intros x cl0 [= <-] Hx. now right.
  - intros [= <-]. exists [child]. repeat split; [now left |].
    intros x cl0 [=].
Qed.

(** The last loop of [demote], which hands the children of the node to
    the parent that the node has by then. *)
Lemma hand_over_loop (self np : ref) (l : list ref) (s s' : heap) :
  self <> np ->
  _parent (s self) = Some np ->
  for_each l (fun child =>
    parent <-- read _parent self ;;
    _ <-- set_parent child parent ;;
    parent <-- read _parent self ;;
    call parent (fun r => add_child r child false)) s = (Ok tt, s') ->
  _parent (s' self) = Some np
  /\ (forall c, In c l ->
        _parent (s' c) = Some np
        /\ exists cl, _children (s' np) = Some cl /\ In c cl)
  /\ (forall r, _sibling (s' r) = _sibling (s r))
  /\ (forall r, r <> np -> _children (s' r) = _children (s r))
  /\ (forall r, ~ In r l -> _parent (s' r) = _parent (s r))
  /\ (forall x cl0, _children (s np) = Some cl0 -> In x cl0 ->
        exists cl, _children (s' np) = Some cl /\ In x cl).
Proof.
  intros Hne. revert s. induction l as [| c l IH]; intros s Hp H.
  - cbn in H. injection H as <-.
    repeat apply conj; auto; [intros ? [] | eauto].
  - cbn [for_each] in H.
    apply bind_inv in H as ([] & s2 & B & H).
    erewrite bind_ok in B by reflexivity. rewrite Hp in B.
    erewrite bind_ok in B by reflexivity.
    set (s1 := upd s c (with_parent (Some np) (s c))) in *.
    assert (P1 : _parent (s1 self) = Some np).
    { subst s1. unfold upd. destruct (Nat.eqb self c); [reflexivity | exact Hp]. }
    erewrite bind_ok in B by reflexivity. rewrite P1 in B. cbn [call] in B.
    apply add_child_inv in B as (cl' & -> & Ic & Mono).
    set (s2 := upd s1 np (with_children (Some cl') (s1 np))) in *.
    assert (P2 : forall r, _parent (s2 r) = _parent (s1 r))
      by (intros r; apply parent_upd_children).
    assert (C2 : _children (s2 np) = Some cl')
      by (subst s2; now rewrite upd_same).
    destruct (IH s2) as (Q1 & Q2 & Q3 & Q4 & Q5 & Q6);
      [now rewrite P2 | exact H |].
    split; [exact Q1 |]. split; [| split; [| split; [| split]]].
    + intros x [<- | Hx]; [| now apply Q2].
      split.
      * destruct (in_dec Nat.eq_dec c l) as [Hl | Hl]; [now apply Q2 |].
        rewrite Q5, P2 by exact Hl. subst s1. now rewrite upd_same.
      * apply (Q6 c cl' C2 Ic).
    + intros r. rewrite Q3. subst s2. rewrite sibling_upd_children.
      subst s1. apply sibling_upd_parent.
    + intros r Hr. rewrite Q4 by exact Hr. subst s2.
      rewrite upd_other by exact Hr. subst s1. apply children_upd_parent.
    + intros r Hr. rewrite Q5 by (intros C; apply Hr; now right).
      rewrite P2. subst s1. rewrite upd_other; [reflexivity |].
      intros ->. apply Hr. now left.
    + intros x cl0 E Hx. apply (Q6 x cl' C2).
      apply (Mono x cl0); [| exact Hx].
      subst s1. rewrite children_upd_parent. exact E.
Qed.

(** C6, as the code has it.  Take a node with a sibling marker and a
    parent, both other than the node itself, on which [demote] succeeds.
    Afterwards the parent of the node is the node that the marker pointed
    at, and each of the children that the node had has that same new
    parent, not the old one, and stands among the children of the new
    parent, as the node itself does; the sibling marker of the first of
    them is the node, and the node has no children. *)
Theorem heading_demote_children (s s' : heap) (self p sib : ref) :
  _sibling (s self) = Some sib -> sib <> self ->
  _parent (s self) = Some p -> p <> self ->
  demote self s = (Ok tt, s') ->
  let children := match _children (s self) with Some l => l | None => [] end in
  _parent (s' self) = Some sib
  /\ (exists cl, _children (s' sib) = Some cl /\ In self cl)
  /\ (forall c, In c children ->
        _parent (s' c) = Some sib
        /\ exists cl, _children (s' sib) = Some cl /\ In c cl)
  /\ (forall first rest, children = first :: rest ->
        _sibling (s' first) = Some self)
  /\ _children (s' self) = None.
Proof.
  intros Hsib Hns Hp Hnp H children.
  unfold demote in H.
  erewrite bind_ok in H by reflexivity. rewrite Hsib in H.
  erewrite bind_ok in H by reflexivity.
  set (s1 := upd s self _) in H.
  assert (S1 : forall r, _children (s1 r) = _children (s r)
                         /\ _parent (s1 r) = _parent (s r)
                         /\ _sibling (s1 r) = _sibling (s r)).
  { intros r. subst s1. unfold upd.
    destruct (Nat.eqb_spec r self) as [-> |]; repeat split; reflexivity. }
  clearbody s1.
  erewrite bind_ok in H by reflexivity.
  rewrite (proj1 (proj2 (S1 self))), Hp in H. cbn [attr] in H.
  erewrite bind_ok in H by reflexivity.
  apply bind_inv in H as (idx & s1' & E & H).
  unfold mlift in E. injection E as E <-.
  destruct (_children (s1 p)) as [siblings |] eqn:C1; [| discriminate].
  apply bind_inv in H as ([] & s2 & E2 & H).
  assert (S2 : (forall r, _children (s2 r) = _children (s r)
                          /\ _parent (s2 r) = _parent (s r))
               /\ _sibling (s2 self) = Some sib).
  { destruct (getitem siblings (idx + 1)) as [next_sibling | e].
    - erewrite bind_ok in E2 by reflexivity.
      rewrite (proj2 (proj2 (S1 self))), Hsib in E2.
      injection E2 as <-. split.
      + intros r. rewrite children_upd_sibling, parent_upd_sibling.
        split; apply S1.
      + unfold upd. destruct (Nat.eqb self next_sibling); [reflexivity |].
        rewrite (proj2 (proj2 (S1 self))). exact Hsib.
    - injection E2 as <-. split.
      + intros r. split; apply S1.
      + rewrite (proj2 (proj2 (S1 self))). exact Hsib. }
  destruct S2 as [S2 S2sib].
  assert (Cp : _children (s p) = Some siblings)
    by (rewrite <- C1; symmetry; apply S1).
  clear E2 S1 E C1 s1.
  erewrite bind_ok in H by reflexivity.
  rewrite (proj2 (S2 self)), Hp in H. cbn [call] in H.
  assert (C2 : _children (s2 p) = Some siblings)
    by (now rewrite (proj1 (S2 p))).
  destruct (remove_child_spec p self siblings s2 C2) as (s3 & E3 & P3 & O3).
  erewrite bind_ok in H by exact E3.
  erewrite bind_ok in H by reflexivity.
  rewrite (O3 self), S2sib in H by auto.
  erewrite bind_ok in H by reflexivity.
  set (s4 := upd s3 self _) in H.
  assert (S4self : s4 self = with_parent (Some sib) (s2 self)).
  { subst s4. rewrite upd_same, O3 by auto. reflexivity. }
  assert (S4o : forall r, r <> self -> s4 r = s3 r).
  { intros r Hr. subst s4. now apply upd_other. }
  clearbody s4.
  erewrite bind_ok in H by reflexivity.
  rewrite S4self in H. cbn [_parent with_parent attr] in H.
  erewrite bind_ok in H by reflexivity.
  apply bind_inv in H as ([] & s5 & E5 & H).
  assert (S5 : exists v, s5 = upd s4 self (with_sibling v (s4 self))).
  { destruct (_children (s4 sib)) as [[| c cs] |].
    - injection E5 as <-. eauto.
    - apply bind_inv in E5 as (last & s4' & G & E5).
      unfold mlift in G. injection G as _ <-.
      injection E5 as <-. eauto.
    - injection E5 as <-. eauto. }
  destruct S5 as (v & ->). clear E5.
  set (s5 := upd s4 self _) in H.
  assert (S5self : s5 self = with_sibling v (with_parent (Some sib) (s2 self))).
  { subst s5. now rewrite upd_same, S4self. }
  assert (S5o : forall r, r <> self -> s5 r = s3 r).
  { intros r Hr. subst s5. rewrite upd_other by exact Hr. now apply S4o. }
  clearbody s5. clear S4self S4o s4.
  erewrite bind_ok in H by reflexivity.
  rewrite S5self in H. cbn [_parent with_parent with_sibling call] in H.
  apply bind_inv in H as ([] & s6 & E6 & H).
  apply add_child_inv in E6 as (cl6 & -> & I6 & _).
  set (s6 := upd s5 sib _) in H.
  assert (S6self : s6 self = s5 self) by (subst s6; now apply upd_other).
  assert (S6sib : _children (s6 sib) = Some cl6)
    by (subst s6; now rewrite upd_same).
  clearbody s6.
  erewrite bind_ok in H by reflexivity.
  rewrite S6self, S5self in H. cbn [_children with_sibling with_parent] in H.
  rewrite (proj1 (S2 self)) in H.
  assert (P6 : _parent (s6 self) = Some sib)
    by (now rewrite S6self, S5self).
  apply bind_inv in H as ([] & s8 & E8 & H).
  injection H as <-.
  assert (S8 : _parent (s8 self) = Some sib
               /\ (exists cl, _children (s8 sib) = Some cl /\ In self cl)
               /\ (forall c, In c children ->
                     _parent (s8 c) = Some sib
                     /\ exists cl, _children (s8 sib) = Some cl /\ In c cl)
               /\ (forall first rest, children = first :: rest ->
                     _sibling (s8 first) = Some self)).
  { subst children.
    destruct (_children (s self)) as [[| first rest] |].
    - injection E8 as <-. repeat apply conj; eauto; [intros c [] | discriminate].
    - erewrite bind_ok in E8 by reflexivity.
      set (s7 := upd s6 first (with_sibling (Some self) (s6 first))) in E8.
      destruct (hand_over_loop self sib (first :: rest) s7 s8)
        as (Q1 & Q2 & Q3 & Q4 & Q5 & Q6); auto.
      { subst s7. now rewrite parent_upd_sibling. }
      repeat apply conj; auto.
      + apply (Q6 self cl6); [| exact I6].
        subst s7. now rewrite children_upd_sibling.
      + intros f r [= <- <-]. rewrite Q3. subst s7. now rewrite upd_same.
    - injection E8 as <-. repeat apply conj; eauto; [intros c [] | discriminate]. }
  destruct S8 as (R1 & (cl & R2 & R2') & R3 & R4).
  repeat apply conj.
  - now rewrite parent_upd_children.
  - exists cl. now rewrite upd_other.
  - intros c Hc. destruct (R3 c Hc) as (A & cl' & B & B').
    split; [now rewrite parent_upd_children |].
    exists cl'. now rewrite upd_other.
  - intros f r E. rewrite sibling_upd_children. now apply (R4 f r).
  - now rewrite upd_same.
Qed.

End DemoteFacts.

(** ** Heading: the tree, on the sample documents *)

Section TreeExamples.

Import Heading.

Ltac no_dup :=
  repeat (constructor; [cbn; intuition discriminate |]); constructor.

Lemma heading_refusals_leave_heap_witness :
  promote 1%nat Examples.outline = (Raise TypeError, Examples.outline)
  /\ demote 2%nat Examples.outline = (Raise ValueError, Examples.outline).
Proof.
  split.
  - apply (proj1 (heading_refusals_leave_heap Examples.outline 1%nat)).
    reflexivity.
  - apply (proj2 (heading_refusals_leave_heap Examples.outline 2%nat)).
    reflexivity.
Defined.

(** C5, as stated, fails.  In [stray] the promotion of 2 is refused by
    [add_child], which does not find the sibling marker among the children
    of the grandparent; by then the node has been changed. *)
Lemma heading_promote_failure_changes_heap :
  fst (promote 2%nat Examples.stray) = Raise ValueError
  /\ snd (promote 2%nat Examples.stray) 2%nat <> Examples.stray 2%nat.
Proof.
  split; [reflexivity |].
  intros E. apply (f_equal _parent) in E. vm_compute in E. discriminate.
Qed.

(** What the refused promotion leaves behind. *)
Example heading_promote_failure_state :
  let s' := snd (promote 2%nat Examples.stray) in
  level Examples.stray 2%nat = 2 /\ level s' 2%nat = 1
  /\ _parent (Examples.stray 2%nat) = Some 1%nat
  /\ _parent (s' 2%nat) = Some 0%nat
  /\ _sibling (s' 2%nat) = Some 1%nat
  /\ _children (Examples.stray 1%nat) = Some [2%nat]
  /\ _children (s' 1%nat) = Some [].
Proof. repeat split; reflexivity. Qed.

Lemma heading_promote_below_root_witness :
  exists s',
    promote 4%nat Examples.outline = (Raise AttributeError, s')
    /\ level s' 4%nat = Z.max (level Examples.outline 4%nat - 1) 1
    /\ _parent (s' 4%nat) = None
    /\ _children (s' 4%nat) = Some [5%nat]
    /\ (forall x, In x [5%nat] -> _parent (s' x) = Some 4%nat)
    /\ (exists rest,
          _children (s' 0%nat) = Some rest
          /\ forall c, In c rest <->
                       In c [1; 4; 5]%nat /\ c <> 4%nat /\ ~ In c [5%nat]).
Proof.
  apply (heading_promote_below_root Examples.outline 4%nat 0%nat
           [1; 4; 5]%nat 1); try reflexivity.
  - no_dup.
  - cbn. intuition discriminate.
Defined.

Lemma heading_demote_children_witness :
  _parent (snd (demote 5%nat Examples.outline) 5%nat) = Some 4%nat
  /\ (exists cl, _children (snd (demote 5%nat Examples.outline) 4%nat)
                 = Some cl /\ In 5%nat cl)
  /\ (forall c, In c [6; 7]%nat ->
        _parent (snd (demote 5%nat Examples.outline) c) = Some 4%nat
        /\ exists cl, _children (snd (demote 5%nat Examples.outline) 4%nat)
                      = Some cl /\ In c cl)
  /\ (forall first rest, [6; 7]%nat = first :: rest ->
        _sibling (snd (demote 5%nat Examples.outline) first) = Some 5%nat)
  /\ _children (snd (demote 5%nat Examples.outline) 5%nat) = None.
Proof.
  apply (heading_demote_children Examples.outline
           (snd (demote 5%nat Examples.outline)) 5%nat 0%nat 4%nat);
    try reflexivity; discriminate.
Defined.

(** C6, as stated, fails.  Demoting E in [outline] succeeds; its child F
    does not get the old parent of E, the root, as its parent, and is not
    put among the children of the root. *)
Lemma heading_demote_children_not_under_old_parent :
  fst (demote 5%nat Examples.outline) = Ok tt
  /\ _children (Examples.outline 5%nat) = Some [6; 7]%nat
  /\ _parent (snd (demote 5%nat Examples.outline) 6%nat)
     <> _parent (Examples.outline 5%nat)
  /\ _children (snd (demote 5%nat Examples.outline) 0%nat)
     = Some [1; 4]%nat.
Proof.
  repeat split; try reflexivity.
  vm_compute. discriminate.
Qed.

Example heading_demote_outline :
  let s' := snd (demote 5%nat Examples.outline) in
  _children (s' 4%nat) = Some [5; 6; 7]%nat
  /\ map (fun r => _parent (s' r)) [5; 6; 7]%nat
     = [Some 4; Some 4; Some 4]%nat
  /\ map (fun r => level s' r) [5; 6; 7]%nat = [2; 2; 2].
Proof. repeat split; reflexivity. Qed.

End TreeExamples.
(** ** Heading: the rendering and the source text *)

Section RenderingFacts.

Import Heading.

Variable stamps : Scheduling.store.






End RenderingFacts.

(** A heading of a sample that holds what its tuple says. *)
Ltac sample_built :=
  unfold Heading.built_from; cbn; repeat split; auto.

Ltac sample_leaf :=
  cbn [Heading.parsed];
  split; [sample_built | exists []; split; [reflexivity | exact I]].


(** The document of the witness and its rendering. *)
Example heading_repr_plan :
  Source.text Examples.plan_source
  = "* Plan [1/2]" ++ nl ++ "Two steps." ++ nl
    ++ "** Draft [1/1]" ++ nl ++ "3+4+5+6" ++ nl
    ++ "** Review     :work:" ++ nl
    ++ "SCHEDULED: <2024-01-02 Tue 09:00>" ++ nl.
Proof. reflexivity. Qed.


(** The sample of the round trip test is not rendered as the text it was
    read from either: after a headline without a cookie and tags there
    is a space, and after a headline with nothing under it there is no
    newline. *)
Lemma heading_repr_sample_not_source :
  fst (Heading.__repr__ Examples.stamps 5 0%nat Examples.calculation)
  = Ok ("* Calculation TODO ** Input " ++ nl ++ "3+4+5+6" ++ nl
        ++ "** Evaluation ")
  /\ Source.text Examples.calculation_source
     = "* Calculation TODO" ++ nl ++ "** Input" ++ nl ++ "3+4+5+6" ++ nl
       ++ "** Evaluation" ++ nl.
Proof. split; reflexivity. Qed.

(** Nor is a heading with a drawer: the drawers are rendered as a list,
    in brackets. *)
Lemma heading_repr_drawers_not_source :
  Heading.parsed Examples.stamps Examples.logged Examples.logged_source
    0%nat
  /\ fst (Heading.__repr__ Examples.stamps 5 0%nat Examples.logged)
     = Ok ("* Report [1/2]" ++ nl
           ++ "[:LOGBOOK:" ++ nl ++ "CLOCK: [2024-01-01 Mon 09:00]" ++ nl
           ++ ":END:" ++ nl ++ "]" ++ nl ++ "Done." ++ nl)
  /\ Source.text Examples.logged_source
     = "* Report [1/2]" ++ nl
       ++ ":LOGBOOK:" ++ nl ++ "CLOCK: [2024-01-01 Mon 09:00]" ++ nl
       ++ ":END:" ++ nl ++ "Done." ++ nl.
Proof.
  split; [| split].
  - sample_leaf.
  - reflexivity.
  - reflexivity.
Qed.

(** * Further properties *)

(** ** Texts and numbers *)

Section TextFacts.

Lemma all_chars_app (P : ascii -> bool) (a b : string) :
  all_chars P (a ++ b) = all_chars P a && all_chars P b.
Proof.
  unfold all_chars. induction a as [| c a IH]; cbn; [reflexivity |].
  now rewrite IH, andb_assoc.
Qed.

Lemma all_chars_weaken (P Q : ascii -> bool) (s : string) :
  (forall c, P c = true -> Q c = true) ->
  all_chars P s = true -> all_chars Q s = true.
Proof.
  intros H. unfold all_chars. induction s as [| c s IH]; cbn; [reflexivity |].
  intros E. apply andb_true_iff in E as [E1 E2].
  now rewrite (H c E1), IH.
Qed.

Lemma uint_digits (d : Decimal.uint) :
  all_chars is_digit (NilEmpty.string_of_uint d) = true.
Proof. induction d; cbn; auto. Qed.

Lemma int_digits_uint (d lu : Decimal.uint) (b : bool) :
  d <> Decimal.Nil \/ b = true ->
  int_digits (NilEmpty.string_of_uint d)
             (Z.of_N (DecimalPos.Unsigned.of_lu lu)) b
  = Some (Z.of_N (DecimalPos.Unsigned.of_lu (Decimal.revapp d lu))).
Proof.
  revert lu b. induction d; intros lu b H;
    [destruct H as [H | ->]; [congruence | reflexivity] | ..].
  all: cbn [NilEmpty.string_of_uint int_digits Decimal.revapp].
  all: match goal with
       | |- context [is_digit ?c] => change (is_digit c) with true
       end; cbv iota.
  all: match goal with
       | |- int_digits _ ?acc true = Some (Z.of_N (_ (Decimal.revapp _ ?l))) =>
           replace acc with (Z.of_N (DecimalPos.Unsigned.of_lu l));
           [apply IHd; now right |]
       end.
  all: cbn [DecimalPos.Unsigned.of_lu];
    rewrite ?N2Z.inj_add, ?N2Z.inj_mul;
    generalize (Z.of_N (DecimalPos.Unsigned.of_lu lu)); intros x;
    repeat match goal with
           | |- context [Z.of_nat (nat_of_ascii ?c)] =>
               let v := eval vm_compute in (Z.of_nat (nat_of_ascii c)) in
               change (Z.of_nat (nat_of_ascii c)) with v
           | |- context [Z.of_N (Npos ?p)] =>
               change (Z.of_N (Npos p)) with (Zpos p)
           end;
    lia.
Qed.

Lemma int_digits_to_uint (p : positive) :
  int_digits (NilEmpty.string_of_uint (Pos.to_uint p)) 0 false
  = Some (Zpos p).
Proof.
  change 0 with (Z.of_N (DecimalPos.Unsigned.of_lu Decimal.Nil)).
  rewrite int_digits_uint
    by (left; apply DecimalPos.Unsigned.to_uint_nonnil).
  fold (Decimal.rev (Pos.to_uint p)).
  rewrite <- DecimalPos.Unsigned.of_uint_alt, DecimalPos.Unsigned.of_to.
  reflexivity.
Qed.

Lemma lstrip_head (c : ascii) (s : string) :
  isspace c = false -> lstrip (String c s) = String c s.
Proof. intros H. cbn. now rewrite H. Qed.

Lemma nilzero_to_uint (p : positive) :
  NilZero.string_of_uint (Pos.to_uint p)
  = NilEmpty.string_of_uint (Pos.to_uint p).
Proof.
  pose proof (DecimalPos.Unsigned.to_uint_nonnil p) as H.
  unfold NilZero.string_of_uint. destruct (Pos.to_uint p); congruence.
Qed.

Lemma unsigned_head (d : Decimal.uint) :
  d <> Decimal.Nil ->
  exists c t,
    NilEmpty.string_of_uint d = String c t
    /\ is_digit c = true.
Proof.
  destruct d; intros H; [congruence | ..]; cbn; eauto.
Qed.

Lemma int_rstrip_no_space (s : string) :
  all_chars (fun c => negb (int_space c)) s = true -> int_rstrip s = s.
Proof.
  unfold all_chars. induction s as [| c s IH]; cbn; [reflexivity |].
  intros E. apply andb_true_iff in E as [E1 E2].
  rewrite IH by exact E2. apply negb_true_iff in E1. rewrite E1.
  now destruct s.
Qed.

Lemma int_strip_no_space (s : string) :
  all_chars (fun c => negb (int_space c)) s = true ->
  int_rstrip (int_lstrip s) = s.
Proof.
  intros H.
  replace (int_lstrip s) with s; [now apply int_rstrip_no_space |].
  destruct s as [| c s]; [reflexivity |].
  unfold all_chars in H. cbn in H. apply andb_true_iff in H as [H _].
  apply negb_true_iff in H. cbn. now rewrite H.
Qed.

Lemma digit_not_int_space (c : ascii) :
  is_digit c = true -> negb (int_space c) = true.
Proof.
  unfold is_digit, int_space. intros H.
  apply andb_true_iff in H as [H1 H2].
  apply Nat.leb_le in H1, H2.
  apply negb_true_iff.
  repeat (apply orb_false_iff; split);
    try (apply Nat.eqb_neq; lia).
  apply andb_false_iff. right. apply Nat.leb_gt. lia.
Qed.

Lemma uint_string_no_int_space (d : Decimal.uint) :
  all_chars (fun c => negb (int_space c)) (NilEmpty.string_of_uint d) = true.
Proof.
  apply (all_chars_weaken is_digit); [apply digit_not_int_space |].
  apply uint_digits.
Qed.

(** In a text of digits the limit of [int] counts every character. *)
Lemma count_digits_all (s : string) :
  all_chars is_digit s = true -> count_digits s = String.length s.
Proof.
  unfold all_chars. induction s as [| c s IH]; cbn; [reflexivity |].
  intros E. apply andb_true_iff in E as [E1 E2].
  now rewrite E1, IH.
Qed.

(** What [str] returns, when it returns: the decimal text of a number
    that is within the limit. *)
Lemma str_int_ok (z : Z) (text : string) :
  str_int z = Ok text ->
  text = str_of_int z
  /\ Z.of_nat (String.length (str_of_int (Z.abs z))) <= int_max_str_digits.
Proof.
  unfold str_int.
  destruct (Z.ltb_spec int_max_str_digits
              (Z.of_nat (String.length (str_of_int (Z.abs z)))));
    [discriminate |].
  intros [= <-]. split; [reflexivity | assumption].
Qed.

(** [int] reads back what [str] writes for an int within the limit. *)
Lemma int_of_str_of_int (z : Z) :
  Z.of_nat (String.length (str_of_int (Z.abs z))) <= int_max_str_digits ->
  int_of_str (str_of_int z) = Ok z.
Proof.
  unfold int_of_str, str_of_int.
  destruct z as [| p | p]; [reflexivity | |];
    cbn [Z.abs Z.to_int NilZero.string_of_int]; intros L.
  - rewrite nilzero_to_uint in *.
    rewrite int_strip_no_space by apply uint_string_no_int_space.
    pose proof (int_digits_to_uint p) as R.
    pose proof (count_digits_all _ (uint_digits (Pos.to_uint p))) as C.
    destruct (unsigned_head (Pos.to_uint p)
                (DecimalPos.Unsigned.to_uint_nonnil p)) as (c & t & E & D).
    rewrite E in *.
    assert (T : (int_max_str_digits
                 <? Z.of_nat (count_digits (String c t))) = false)
      by (apply Z.ltb_ge; rewrite C; exact L).
    destruct c as [[] [] [] [] [] [] [] []]; try discriminate D;
      cbv beta iota; rewrite R, T; reflexivity.
  - rewrite nilzero_to_uint in *.
    rewrite int_strip_no_space.
    + cbv beta iota. rewrite int_digits_to_uint.
      rewrite (count_digits_all _ (uint_digits (Pos.to_uint p))).
      apply Z.ltb_ge in L. rewrite L. reflexivity.
    + unfold all_chars. cbn [list_ascii_of_string forallb].
      apply andb_true_iff. split; [reflexivity |].
      apply uint_string_no_int_space.
Qed.

End TextFacts.

(** ** Matching *)

Section MatchingFacts.

Import Re.

(** A greedy repetition over a stretch of accepted characters goes on to
    what the rest of the text gives, when that is a match. *)
Lemma star_skip {R} (cc : cclass) (a y : string) (k : string -> option R)
    (r : R) :
  all_chars (accepts cc) a = true ->
  star cc y k = Some r ->
  star cc (a ++ y) k = Some r.
Proof.
  unfold all_chars. induction a as [| c a IH]; cbn; [auto |].
  intros E H. apply andb_true_iff in E as [E1 E2].
  rewrite E1, IH by assumption. reflexivity.
Qed.

(** It fails when what follows fails on every tail of the text. *)
Lemma star_fails {R} (cc : cclass) (y : string) (k : string -> option R) :
  (forall u t, y = u ++ t -> k t = None) ->
  star cc y k = None.
Proof.
  induction y as [| c y IH]; intros H.
  - cbn. apply (H "" ""). reflexivity.
  - cbn. rewrite IH.
    + destruct (accepts cc c); apply (H "" (String c y)); reflexivity.
    + intros u t ->. apply (H (String c u) t). reflexivity.
Qed.

(** It is what follows on the whole text, when that fails on every
    shorter tail. *)
Lemma star_here {R} (cc : cclass) (y : string) (k : string -> option R) :
  (forall c u t, y = String c (u ++ t) -> k t = None) ->
  star cc y k = k y.
Proof.
  destruct y as [| c y]; intros H; [reflexivity |].
  cbn. rewrite star_fails; [now destruct (accepts cc c) |].
  intros u t ->. apply (H c u t). reflexivity.
Qed.

Lemma search_chr_none (x : ascii) (text : string) :
  all_chars (fun c => negb (Ascii.eqb c x)) text = true ->
  search (chr x) text = None.
Proof.
  unfold all_chars. induction text as [| c text IH]; cbn; [reflexivity |].
  intros E. apply andb_true_iff in E as [E1 E2].
  apply negb_true_iff in E1. rewrite E1. now apply IH.
Qed.

Lemma search_chr_some (x : ascii) (a b : string) :
  search (chr x) (a ++ String x b) = Some [].
Proof.
  induction a as [| c a IH]; cbn.
  - now rewrite Ascii.eqb_refl.
  - destruct (Ascii.eqb c x); [reflexivity | exact IH].
Qed.

Lemma substring_prefix (a b : string) :
  substring 0 (String.length (a ++ b) - String.length b) (a ++ b) = a.
Proof.
  replace (String.length (a ++ b) - String.length b)%nat
    with (String.length a).
  - induction a as [| c a IH]; cbn.
    + now destruct b.
    + now rewrite IH.
  - induction a as [| c a IH]; cbn [String.length append].
    + lia.
    + assert (String.length b <= String.length (a ++ b))%nat.
      { clear. induction a; cbn; lia. }
      lia.
Qed.

(** The head of a tail of a text is one of the characters of the text. *)
Lemma tail_head (P : ascii -> bool) (s u : string) (c : ascii) (t : string) :
  all_chars P s = true -> s = u ++ String c t -> P c = true.
Proof.
  intros H ->. rewrite all_chars_app in H.
  apply andb_true_iff in H as [_ H].
  unfold all_chars in H. cbn in H. now apply andb_true_iff in H as [H _].
Qed.

End MatchingFacts.

(** ** Cookie, further *)

Section CookieMore.

Import Cookie.

Lemma search_at_start (r : Re.regex) (text : string) (g : Re.groups) :
  Re.run r text [] (fun _ g => Some g) = Some g ->
  Re.search r text = Some g.
Proof. intros H. destruct text; cbn; now rewrite H. Qed.

Lemma str_of_int_plain (z : Z) :
  all_chars plain_chr (str_of_int z) = true.
Proof.
  assert (D : forall d, all_chars plain_chr (NilEmpty.string_of_uint d) = true).
  { intros d. apply (all_chars_weaken is_digit); [| apply uint_digits].
    intros c H. unfold plain_chr. now rewrite H. }
  unfold str_of_int.
  destruct z as [| p | p]; [reflexivity | |];
    cbn [Z.to_int NilZero.string_of_int]; rewrite nilzero_to_uint.
  - apply D.
  - unfold all_chars. cbn [list_ascii_of_string forallb].
    apply andb_true_iff. split; [reflexivity | apply D].
Qed.

Lemma str_of_int_head (z : Z) :
  exists c t, str_of_int z = String c t /\ plain_chr c = true.
Proof.
  pose proof (str_of_int_plain z) as P.
  unfold str_of_int in *.
  destruct z as [| p | p]; cbn [Z.to_int NilZero.string_of_int] in *.
  - exists "0"%char, "". split; reflexivity.
  - rewrite nilzero_to_uint in *.
    destruct (unsigned_head (Pos.to_uint p)
                (DecimalPos.Unsigned.to_uint_nonnil p)) as (c & t & E & D).
    exists c, t. split; [exact E |]. unfold plain_chr. now rewrite D.
  - eexists _, _. split; reflexivity.
Qed.

Lemma plain_not (x : ascii) (s : string) :
  plain_chr x = false ->
  all_chars plain_chr s = true ->
  all_chars (fun c => negb (Ascii.eqb c x)) s = true.
Proof.
  intros Hx. apply all_chars_weaken. intros c Hc.
  destruct (Ascii.eqb_spec c x) as [-> |]; [congruence | reflexivity].
Qed.

Lemma plain_dot (s : string) :
  all_chars plain_chr s = true ->
  all_chars (Re.accepts Re.CDot) s = true.
Proof. apply (plain_not "010"%char). reflexivity. Qed.

(** The pattern of a progress cookie on a text of the form [[a/b]]. *)
Lemma run_progress (a b : string) :
  all_chars plain_chr a = true ->
  all_chars plain_chr b = true ->
  Re.run re_progress_cookie ("[" ++ a ++ "/" ++ b ++ "]") []
         (fun _ g => Some g)
  = Some [(2%nat, b); (1%nat, a)].
Proof.
  intros Ha Hb. unfold re_progress_cookie, Re.chr.
  cbn [Re.run append Re.accepts]. rewrite Ascii.eqb_refl.
  erewrite star_skip; [reflexivity | now apply plain_dot |].
  rewrite star_here.
  - cbn [Re.run append Re.accepts]. rewrite Ascii.eqb_refl.
    erewrite (star_skip Re.CDot b "]"); [| now apply plain_dot | reflexivity].
    rewrite (substring_prefix b "]").
    pose proof (substring_prefix a ("/" ++ b ++ "]")) as S.
    cbn [append] in S. rewrite S. reflexivity.
  - intros c u t E. cbn [append] in E. injection E as _ E.
    destruct t as [| x t]; [reflexivity |].
    assert (X : plain_chr x || Ascii.eqb x "]" = true).
    { apply (tail_head (fun c => plain_chr c || Ascii.eqb c "]")
               (b ++ "]") u x t); [| exact E].
      rewrite all_chars_app. apply andb_true_iff. split; [| reflexivity].
      revert Hb. apply all_chars_weaken. intros y ->. reflexivity. }
    cbn [Re.run Re.accepts].
    destruct (Ascii.eqb_spec x "/") as [-> |]; [discriminate X | reflexivity].
Qed.

(** The pattern of a percent cookie on a text of the form [[a%]]. *)
Lemma run_percent (c : ascii) (a : string) :
  all_chars plain_chr (String c a) = true ->
  Re.run re_percent_cookie ("[" ++ String c a ++ "%]") []
         (fun _ g => Some g)
  = Some [(1%nat, String c a)].
Proof.
  intros Ha. unfold re_percent_cookie, Re.chr.
  cbn [Re.run append Re.accepts]. rewrite Ascii.eqb_refl.
  pose proof (plain_dot _ Ha) as Hd.
  unfold all_chars in Hd. cbn [list_ascii_of_string forallb] in Hd.
  apply andb_true_iff in Hd as [Hc Hd].
  cbn [Re.accepts] in Hc. rewrite Hc.
  erewrite (star_skip Re.CDot a "%]"); [| exact Hd | reflexivity].
  pose proof (substring_prefix (String c a) "%]") as S.
  cbn [append] in S. rewrite S. reflexivity.
Qed.

Lemma str_of_int_not_empty (z : Z) : String.eqb (str_of_int z) "" = false.
Proof.
  destruct (str_of_int_head z) as (c & t & -> & _). reflexivity.
Qed.

(** X1.  A progress cookie within its bounds is read back from its own
    text: whenever [__repr__] returns a text for it, which it does unless
    a number has more digits than the interpreter converts, constructing
    a cookie from that text gives the cookie with the same kind and the
    same two numbers. *)
Theorem cookie_progress_round_trip (c : t) (text : string) :
  _cookie_type c = Some "progress" ->
  m c <= n c ->
  __repr__ c = Ok text ->
  __init__ text = Ok c.
Proof.
  destruct c as [kind vm vn]. cbn [_cookie_type m n _m _n].
  intros -> H.
  unfold __repr__. cbn [_cookie_type m n _m _n].
  destruct (str_int vm) as [a |] eqn:Ea; [| discriminate].
  destruct (str_int vn) as [b |] eqn:Eb; [| discriminate].
  cbn [bind]. intros T.
  apply str_int_ok in Ea as [-> La]. apply str_int_ok in Eb as [-> Lb].
  assert (T' : text = "[" ++ str_of_int vm ++ "/" ++ str_of_int vn ++ "]")
    by congruence.
  clear T. subst text.
  pose proof (str_of_int_plain vm) as Pm.
  pose proof (str_of_int_plain vn) as Pn.
  unfold __init__, re_percent.
  rewrite search_chr_none.
  2:{ rewrite !all_chars_app.
      rewrite (plain_not "%"%char _ eq_refl Pm).
      rewrite (plain_not "%"%char _ eq_refl Pn). reflexivity. }
  replace ("[" ++ str_of_int vm ++ "/" ++ str_of_int vn ++ "]")
    with (("[" ++ str_of_int vm) ++ String "/" (str_of_int vn ++ "]"))
    at 1 by (now rewrite append_assoc).
  unfold re_slash. rewrite search_chr_some.
  rewrite (search_at_start _ _ _ (run_progress _ _ Pm Pn)).
  cbn [Re.group Nat.eqb].
  rewrite !str_of_int_not_empty, !int_of_str_of_int by assumption.
  cbn [bind]. unfold check_bounds. cbn [_m _n].
  destruct (Z.ltb_spec vn vm); [lia | reflexivity].
Qed.

Lemma cookie_progress_round_trip_witness :
  __init__ "[3/12]" = Ok (mk (Some "progress") 3 12).
Proof.
  apply (cookie_progress_round_trip (mk (Some "progress") 3 12) "[3/12]");
    [reflexivity | cbn; lia | reflexivity].
Defined.

(** Beyond the limit there is no text to read back: [__repr__] raises. *)
Example cookie_repr_beyond_limit :
  __repr__ (mk (Some "progress") 0 (10 ^ 4300)) = Raise ValueError.
Proof. vm_compute. reflexivity. Qed.

(** X2.  A percent cookie of at most 100 is read back from its own text
    [[m%]], whenever [__repr__] returns one. *)
Theorem cookie_percent_round_trip (c : t) (text : string) :
  _cookie_type c = Some "percent" ->
  n c = 100 ->
  m c <= 100 ->
  __repr__ c = Ok text ->
  __init__ text = Ok c.
Proof.
  destruct c as [kind vm vn]. cbn [_cookie_type m n _m _n].
  intros -> -> H.
  unfold __repr__. cbn [_cookie_type m n _m _n].
  change (match Some "percent" with
          | Some "progress" =>
              first <- str_int vm ;;
              second <- str_int 100 ;;
              Ok ("[" ++ first ++ "/" ++ second ++ "]")
          | _ => first <- str_int vm ;; Ok ("[" ++ first ++ "%]")
          end) with (first <- str_int vm ;; Ok ("[" ++ first ++ "%]")).
  destruct (str_int vm) as [a |] eqn:Ea; [| discriminate].
  cbn [bind]. intros T.
  apply str_int_ok in Ea as [-> La].
  assert (T' : text = "[" ++ str_of_int vm ++ "%]") by congruence.
  clear T. subst text.
  pose proof (str_of_int_plain vm) as Pm.
  pose proof (int_of_str_of_int vm La) as R.
  destruct (str_of_int_head vm) as (c & a & E & _).
  rewrite E in *.
  unfold __init__.
  replace ("[" ++ String c a ++ "%]")
    with (("[" ++ String c a) ++ String "%" "]")
    at 1 by (now rewrite append_assoc).
  unfold re_percent. rewrite search_chr_some.
  rewrite (search_at_start _ _ _ (run_percent _ _ Pm)).
  cbn [Re.group Nat.eqb]. rewrite R.
  cbn [bind]. unfold check_bounds. cbn [_m _n].
  destruct (Z.ltb_spec 100 vm); [lia | reflexivity].
Qed.

Lemma cookie_percent_round_trip_witness :
  __init__ "[40%]" = Ok (mk (Some "percent") 40 100).
Proof.
  apply (cookie_percent_round_trip (mk (Some "percent") 40 100) "[40%]");
    [reflexivity | reflexivity | cbn; lia | reflexivity].
Defined.

(** X3.  Whatever the text, a cookie that [__init__] returns has its
    first number at most its second. *)
Theorem cookie_init_bounds (text : string) (c : t) :
  __init__ text = Ok c -> m c <= n c.
Proof.
  assert (B : forall self locals, check_bounds self locals = Ok c ->
                                  m c <= n c).
  { intros self locals. unfold check_bounds, m, n.
    destruct (Z.ltb_spec (_n self) (_m self)).
    - destruct locals; discriminate.
    - intros [= <-]. lia. }
  unfold __init__.
  destruct (Re.search re_percent text) as [g0 |].
  - destruct (match Re.search re_percent_cookie text with
              | Some g => int_of_str (Re.group g 1)
              | None => Ok 0
              end); cbn [bind]; [apply B | discriminate].
  - destruct (Re.search re_slash text) as [g1 |]; [| apply B].
    destruct (Re.search re_progress_cookie text) as [g |]; [| discriminate].
    destruct (if String.eqb (Re.group g 1) "" then Ok 0
              else int_of_str (Re.group g 1)); cbn [bind]; [| discriminate].
    destruct (if String.eqb (Re.group g 2) "" then Ok 0
              else int_of_str (Re.group g 2)); cbn [bind]; [| discriminate].
    apply B.
Qed.

Lemma cookie_init_bounds_witness :
  m (mk (Some "progress") 2 5) <= n (mk (Some "progress") 2 5).
Proof.
  apply (cookie_init_bounds "[2/5]" (mk (Some "progress") 2 5)).
  reflexivity.
Defined.

(** X4.  An assignment to [m], and likewise one to [n], either stores
    the int that it is given, leaves the other number and the kind as
    they were and [m] at most [n], or raises [ValueError] and leaves the
    cookie as it was. *)
Theorem cookie_setters_keep_bounds (c cm cn : t) (v : value)
    (rm rn : result unit) :
  set_m v c = (rm, cm) ->
  set_n v c = (rn, cn) ->
  ((exists z,
      v = VInt z /\ rm = Ok tt /\ m cm = z /\ n cm = n c
      /\ _cookie_type cm = _cookie_type c /\ m cm <= n cm)
   \/ (rm = Raise ValueError /\ cm = c))
  /\ ((exists z,
         v = VInt z /\ rn = Ok tt /\ n cn = z /\ m cn = m c
         /\ _cookie_type cn = _cookie_type c /\ m cn <= n cn)
      \/ (rn = Raise ValueError /\ cn = c)).
Proof.
  unfold set_m, set_n, m, n.
  intros Hm Hn. split.
  - destruct v as [| z | s];
      try (injection Hm as <- <-; right; split; reflexivity).
    destruct (Z.ltb_spec (_n c) z); injection Hm as <- <-;
      [right; split; reflexivity |].
    left. exists z. cbn. repeat split; auto.
  - destruct v as [| z | s];
      try (injection Hn as <- <-; right; split; reflexivity).
    destruct (Z.ltb_spec z (_m c)); injection Hn as <- <-;
      [right; split; reflexivity |].
    left. exists z. cbn. repeat split; auto.
Qed.

Lemma cookie_setters_keep_bounds_witness :
  ((exists z,
      VInt 4 = VInt z /\ Ok tt = Ok tt
      /\ m (mk (Some "progress") 4 5) = z
      /\ n (mk (Some "progress") 4 5) = n (mk (Some "progress") 2 5)
      /\ _cookie_type (mk (Some "progress") 4 5)
         = _cookie_type (mk (Some "progress") 2 5)
      /\ m (mk (Some "progress") 4 5) <= n (mk (Some "progress") 4 5))
   \/ (Ok tt = Raise ValueError
       /\ mk (Some "progress") 4 5 = mk (Some "progress") 2 5))
  /\ ((exists z,
         VInt 4 = VInt z /\ Ok tt = Ok tt
         /\ n (mk (Some "progress") 2 4) = z
         /\ m (mk (Some "progress") 2 4) = m (mk (Some "progress") 2 5)
         /\ _cookie_type (mk (Some "progress") 2 4)
            = _cookie_type (mk (Some "progress") 2 5)
         /\ m (mk (Some "progress") 2 4) <= n (mk (Some "progress") 2 4))
      \/ (Ok tt = Raise ValueError
          /\ mk (Some "progress") 2 4 = mk (Some "progress") 2 5)).
Proof.
  apply (cookie_setters_keep_bounds (mk (Some "progress") 2 5)
           (mk (Some "progress") 4 5) (mk (Some "progress") 2 4) (VInt 4)
           (Ok tt) (Ok tt));
    reflexivity.
Defined.

End CookieMore.

(** ** Priority and Headline, further *)

Section PriorityMore.

Import Priority.

(** X5.  A priority that comes out of [__init__], or out of a successful
    assignment, [_raise] or [_lower] on any priority, holds one of the
    allowed values. *)
Theorem priority_stays_allowed (text : string) (p q : t) :
  __init__ text = Ok q
  \/ set_priority text p = (Ok tt, q)
  \/ _raise p = (Ok tt, q)
  \/ _lower p = (Ok tt, q) ->
  In (priority q) allowed_values.
Proof.
  assert (A : forall v, str_in v allowed_values = true ->
                        In v allowed_values).
  { intros v H. unfold str_in in H. apply existsb_exists in H.
    destruct H as (x & Hx & E). apply String.eqb_eq in E. now subst. }
  assert (S : forall v p0, set_priority v p0 = (Ok tt, q) ->
                           In (priority q) allowed_values).
  { intros v p0. unfold set_priority.
    destruct (str_in v allowed_values) eqn:E; [| discriminate].
    intros [= <-]. now apply A. }
  intros [H | [H | [H | H]]].
  - unfold __init__ in H.
    destruct (str_in (_parse_priority text) allowed_values) eqn:E;
      [| discriminate].
    injection H as <-. now apply A.
  - now apply (S text p).
  - unfold _raise in H.
    destruct (str_index (priority p) allowed_values) as [i | e];
      [| discriminate].
    destruct (getitem allowed_values ((i + 1) mod len_allowed)) as [v | e];
      [| discriminate].
    now apply (S v p).
  - unfold _lower in H.
    destruct (str_index (priority p) allowed_values) as [i | e];
      [| discriminate].
    destruct (getitem allowed_values ((i - 1) mod len_allowed)) as [v | e];
      [| discriminate].
    now apply (S v p).
Qed.

Lemma priority_stays_allowed_witness :
  In (priority (mk "B")) allowed_values.
Proof.
  apply (priority_stays_allowed "[#B]" (mk "A") (mk "B")).
  left. reflexivity.
Defined.

(** X6.  A priority with an allowed value is read back from its own text
    [[#X]], and from the bare letter as well. *)
Theorem priority_round_trip (p : t) :
  In (priority p) allowed_values ->
  __init__ (__repr__ p) = Ok p /\ __init__ (priority p) = Ok p.
Proof.
  intros H. destruct (allowed_cases p H) as [-> | [-> | ->]];
    split; reflexivity.
Qed.

Lemma priority_round_trip_witness :
  __init__ (__repr__ (mk "A")) = Ok (mk "A")
  /\ __init__ (priority (mk "A")) = Ok (mk "A").
Proof.
  apply (priority_round_trip (mk "A")). cbn. auto.
Defined.

End PriorityMore.

Section HeadlineMore.

Import Headline.

Variables _todo_states _done_states : list string.

(** X7.  [is_done] raises, and then [ValueError], exactly for a keyword
    that is in neither list of states; otherwise it tells whether the
    keyword is a done state, also when it is a todo state as well. *)
Theorem headline_is_done_cases (h : t) :
  (accepted _todo_states _done_states (todo h) = true
   /\ is_done _todo_states _done_states h
      = Ok (kw_in (todo h) _done_states))
  \/ (accepted _todo_states _done_states (todo h) = false
      /\ is_done _todo_states _done_states h = Raise ValueError).
Proof.
  unfold accepted, is_done, kw_in.
  destruct (todo h) as [s |]; [| left; split; reflexivity].
  destruct (str_in s _done_states), (str_in s _todo_states); cbn;
    auto.
Qed.

(** X8.  Demoting a headline by [k] levels and promoting it by [k] again
    gives the headline back, when it is at level 1 or deeper; promoting
    never leaves a level below 1. *)
Theorem headline_demote_promote (h : t) (k : Z) :
  1 <= level h ->
  0 <= k ->
  exists h1,
    demote k h = (Ok tt, h1)
    /\ promote k h1 = (Ok tt, h)
    /\ forall j, 1 <= level (snd (promote j h)).
Proof.
  intros H K. destruct h as [lv co td pr ti ck tg]. cbn [level _level] in H.
  eexists. split; [reflexivity |]. split.
  - unfold promote, set_level, with_level, level. cbn.
    replace (Z.max (lv + k - k) 1) with lv by lia. reflexivity.
  - intros j. unfold promote, set_level, with_level, level. cbn. lia.
Qed.

Lemma headline_demote_promote_witness :
  exists h1,
    demote 2 (mk 1 false None None "Notes" None None) = (Ok tt, h1)
    /\ promote 2 h1 = (Ok tt, mk 1 false None None "Notes" None None)
    /\ forall j,
         1 <= level (snd (promote j (mk 1 false None None "Notes" None None))).
Proof.
  apply (headline_demote_promote (mk 1 false None None "Notes" None None) 2);
    cbn; lia.
Defined.

End HeadlineMore.

(** ** TimeStamp and Scheduling, further *)

Section TimeStampMore.

Import Datetime TimeStamp.

(** X9.  After a successful assignment to [start_time] or to [end_time]
    the stamp has no end time or an end time that is not before its
    start, whatever it held before. *)
Theorem timestamp_setters_keep_order (ts ts' : t) (value : time_value) :
  set_start_time value ts = (Ok tt, ts')
  \/ set_end_time value ts = (Ok tt, ts') ->
  ordered ts'.
Proof.
  unfold ordered. intros [H | H].
  - unfold set_start_time in H.
    destruct (match value with
              | TStr s =>
                  strptime
                    (String.concat " "
                       [strftime date_format (start_time ts); s])
                    ORG_TIME_FORMAT
              | TDatetime v =>
                  match end_time ts with
                  | Some e => if same_date v e then Ok v else Raise ValueError
                  | None => Raise AttributeError
                  end
              | _ => Raise TypeError
              end) as [t' | x]; [| discriminate].
    destruct (end_time ts) as [e |] eqn:E; [| discriminate].
    destruct (gt t' e) eqn:G; [discriminate |].
    injection H as <-. cbn. unfold end_time in E. rewrite E. exact G.
  - unfold set_end_time in H. destruct value as [| s | v |].
    + injection H as <-. exact I.
    + destruct (end_time ts) as [e |]; [| discriminate].
      destruct (strptime _ _) as [t' | x]; [| discriminate].
      destruct (lt t' (start_time ts)) eqn:L; [discriminate |].
      injection H as <-. exact L.
    + destruct (same_date v (start_time ts)); [| discriminate].
      destruct (lt v (start_time ts)) eqn:L; [discriminate |].
      injection H as <-. exact L.
    + discriminate.
Qed.

Lemma timestamp_setters_keep_order_witness :
  ordered (mk true Examples.nine (Some (Datetime.mk 2024 1 1 11 0 0))
              None None).
Proof.
  apply (timestamp_setters_keep_order Examples.meeting _ (TStr "11:00")).
  right. reflexivity.
Defined.

(** X10.  On a stamp without an end time every assignment to
    [start_time] raises and leaves the stamp as it was, and so does the
    assignment of a text to [end_time]. *)
Theorem timestamp_without_end (ts : t) :
  end_time ts = None ->
  (forall value, exists e, set_start_time value ts = (Raise e, ts))
  /\ (forall s, set_end_time (TStr s) ts = (Raise AttributeError, ts)).
Proof.
  intros H. split.
  - intros value. unfold set_start_time. rewrite H.
    destruct value as [| s | v |]; try (eexists; reflexivity).
    destruct (strptime _ _); eexists; reflexivity.
  - intros s. unfold set_end_time. now rewrite H.
Qed.

Lemma timestamp_without_end_witness :
  (forall value, exists e,
      set_start_time value (mk true Examples.nine None None None)
      = (Raise e, mk true Examples.nine None None None))
  /\ (forall s,
        set_end_time (TStr s) (mk true Examples.nine None None None)
        = (Raise AttributeError, mk true Examples.nine None None None)).
Proof.
  apply (timestamp_without_end (mk true Examples.nine None None None)).
  reflexivity.
Defined.

End TimeStampMore.

Section SchedulingMore.

Import Scheduling.

(** X11.  Assigning a stamp to a valid keyword never fails, stores the
    reference under that keyword and changes the stamp itself in the
    store: under [closed] it becomes inactive and loses end time,
    repeater and warning; under [scheduled] it becomes active and loses
    the warning; under [deadline] it becomes active.  No other stamp is
    touched. *)
Theorem scheduling_set_normalises (keyword : string) (obj : t) (l : loc)
    (st : store) :
  In keyword valid_keywords ->
  exists st',
    __set__ keyword obj (KStamp l) st
    = (Ok (put obj keyword (Some l)), st')
    /\ getattr (put obj keyword (Some l)) keyword = Some l
    /\ st' l = assigned_to keyword (st l)
    /\ forall l', l' <> l -> st' l' = st l'.
Proof.
  assert (U : forall (s : store) v l', l' <> l -> upd s l v l' = s l').
  { intros s v l' H. unfold upd. apply Nat.eqb_neq in H. now rewrite H. }
  assert (V : forall (s : store) v, upd s l v l = v).
  { intros s v. unfold upd. now rewrite Nat.eqb_refl. }
  intros [<- | [<- | [<- | []]]];
    (eexists; split; [reflexivity |]; split; [reflexivity |]; split;
     [rewrite ?V; destruct obj; reflexivity
     | intros l' H; rewrite ?U by exact H; reflexivity]).
Qed.

Lemma scheduling_set_normalises_witness :
  exists st',
    __set__ "closed" empty (KStamp 1%nat) Examples.stamps
    = (Ok (put empty "closed" (Some 1%nat)), st')
    /\ getattr (put empty "closed" (Some 1%nat)) "closed" = Some 1%nat
    /\ st' 1%nat = assigned_to "closed" (Examples.stamps 1%nat)
    /\ forall l', l' <> 1%nat -> st' l' = Examples.stamps l'.
Proof.
  apply (scheduling_set_normalises "closed" empty 1%nat Examples.stamps).
  cbn. auto.
Defined.

(** X12.  [__add__] raises, and then [ValueError] with the store
    untouched, exactly when both operands have [closed] set; in every
    other case it returns the merge that takes each keyword from the left
    operand when it is set there and from the right one otherwise. *)
Theorem scheduling_add_cases (self other : t) (st : store) :
  (is_set (_closed self) && is_set (_closed other) = true
   /\ __add__ self other st = (Raise ValueError, st))
  \/ (is_set (_closed self) && is_set (_closed other) = false
      /\ exists st',
           __add__ self other st = (Ok (Return (merged self other)), st')).
Proof.
  destruct (is_set (_closed self) && is_set (_closed other)) eqn:E.
  - left. split; [reflexivity |]. now apply scheduling_add_raises.
  - right. split; [reflexivity |]. now apply scheduling_add_returns.
Qed.

End SchedulingMore.

(** ** Drawer, and the drawers of a heading *)

Section DrawerFacts.

Import Drawer.

Lemma split_app_nl (x rest : string) :
  one_line x = true ->
  split "010" (x ++ nl ++ rest) = x :: split "010" rest.
Proof.
  unfold one_line, all_chars.
  induction x as [| c x IH]; cbn; [reflexivity |].
  intros E. apply andb_true_iff in E as [E1 E2].
  apply negb_true_iff in E1. rewrite E1.
  cbn in IH. rewrite IH by exact E2. reflexivity.
Qed.

Lemma split_one_line (x : string) :
  one_line x = true -> split "010" x = [x].
Proof.
  unfold one_line, all_chars.
  induction x as [| c x IH]; cbn; [reflexivity |].
  intros E. apply andb_true_iff in E as [E1 E2].
  apply negb_true_iff in E1. rewrite E1, IH by exact E2. reflexivity.
Qed.

(** Lines that were joined by newlines come apart again. *)
Lemma split_lines (lines : list string) (rest : string) :
  lines <> [] ->
  forallb one_line lines = true ->
  split "010" (String.concat nl lines ++ nl ++ rest)
  = (lines ++ split "010" rest)%list.
Proof.
  induction lines as [| x lines IH]; [congruence |].
  intros _ E. cbn [forallb] in E. apply andb_true_iff in E as [E1 E2].
  destruct lines as [| y lines].
  - cbn [String.concat app]. now apply split_app_nl.
  - change (String.concat nl (x :: y :: lines))
      with (x ++ nl ++ String.concat nl (y :: lines)).
    rewrite !append_assoc.
    rewrite split_app_nl by exact E1.
    rewrite IH by (congruence || exact E2). reflexivity.
Qed.

Lemma rstrip_app (a b : string) :
  rstrip b <> "" -> rstrip (a ++ b) = a ++ rstrip b.
Proof.
  intros H. induction a as [| c a IH]; [reflexivity |].
  cbn [append rstrip]. rewrite IH.
  destruct (a ++ rstrip b) eqn:E; [| reflexivity].
  destruct a; [cbn in E; congruence | discriminate].
Qed.

Lemma strip_keep (c : ascii) (x y : string) :
  isspace c = false ->
  rstrip y <> "" ->
  strip (String c (x ++ y)) = String c (x ++ rstrip y).
Proof.
  intros Hc Hy. unfold strip. rewrite lstrip_head by exact Hc.
  change (String c (x ++ y)) with (String c x ++ y).
  now rewrite rstrip_app.
Qed.

Lemma drop_colons_name (name : string) :
  plain_name name = true ->
  drop_colons (":" ++ name ++ ":") = name.
Proof.
  unfold plain_name, all_chars. cbn [append drop_colons Ascii.eqb].
  cbn. induction name as [| c name IH]; cbn; [reflexivity |].
  intros E. apply andb_true_iff in E as [E1 E2].
  apply andb_true_iff in E1 as [_ E1]. apply negb_true_iff in E1.
  rewrite E1, IH by exact E2. reflexivity.
Qed.

Lemma plain_name_one_line (name : string) :
  plain_name name = true -> one_line (":" ++ name ++ ":") = true.
Proof.
  intros H. unfold one_line. rewrite !all_chars_app.
  apply andb_true_iff. split; [reflexivity |].
  apply andb_true_iff. split; [| reflexivity].
  revert H. apply all_chars_weaken.
  intros c E. now apply andb_true_iff in E as [E _].
Qed.

(** What [__init__] makes of a first line, lines and [:END:] that are
    joined by newlines, with or without a newline at the end. *)
Lemma drawer_init_lines (name : string) (lines : list string)
    (ending : string) :
  plain_name name = true ->
  lines <> [] ->
  forallb one_line lines = true ->
  ending = "" \/ ending = nl ->
  __init__ (":" ++ name ++ ":" ++ nl ++ String.concat nl lines ++ nl
            ++ ":END:" ++ ending)
  = mk name lines.
Proof.
  intros Hn Hl Ho He. unfold __init__. f_equal.
  - replace (":" ++ name ++ ":" ++ nl ++ String.concat nl lines ++ nl
             ++ ":END:" ++ ending)
      with ((":" ++ name ++ ":") ++ nl
            ++ (String.concat nl lines ++ nl ++ ":END:" ++ ending))
      by (now rewrite !append_assoc).
    rewrite split_app_nl by now apply plain_name_one_line.
    cbn [hd]. now apply drop_colons_name.
  - assert (S : strip (":" ++ name ++ ":" ++ nl ++ String.concat nl lines
                       ++ nl ++ ":END:" ++ ending)
                = (":" ++ name ++ ":") ++ nl
                  ++ (String.concat nl lines ++ nl ++ ":END:")).
    { assert (T : ":" ++ name ++ ":" ++ nl ++ String.concat nl lines
                  ++ nl ++ ":END:" ++ ending
                  = String ":" ((name ++ ":" ++ nl ++ String.concat nl lines
                                 ++ nl) ++ (":END:" ++ ending))).
      { rewrite !append_assoc. reflexivity. }
      assert (R : rstrip (":END:" ++ ending) = ":END:")
        by (destruct He as [-> | ->]; reflexivity).
      rewrite T, strip_keep, R; [| reflexivity | rewrite R; discriminate].
      rewrite !append_assoc. reflexivity. }
    rewrite S.
    rewrite split_app_nl by now apply plain_name_one_line.
    cbn [tl]. rewrite split_lines by assumption.
    change (split "010" ":END:") with [":END:"].
    apply removelast_last.
Qed.

(** X14.  A drawer whose name has neither colon nor newline and which has
    at least one line, none of them with a newline in it, is read back
    from its own text. *)
Theorem drawer_round_trip (d : t) :
  plain_name (name d) = true ->
  contents d <> [] ->
  forallb one_line (contents d) = true ->
  __init__ (__repr__ d) = d.
Proof.
  intros Hn Hl Ho. destruct d as [n c]. cbn [name contents] in *.
  unfold __repr__. cbn [name contents].
  apply drawer_init_lines; auto.
Qed.

Lemma drawer_round_trip_witness :
  __init__ (__repr__ (mk "LOGBOOK" ["CLOCK: [2024-01-01 Mon 09:00]"; ""]))
  = mk "LOGBOOK" ["CLOCK: [2024-01-01 Mon 09:00]"; ""].
Proof.
  apply (drawer_round_trip
           (mk "LOGBOOK" ["CLOCK: [2024-01-01 Mon 09:00]"; ""]));
    [reflexivity | discriminate | reflexivity].
Defined.

(** A drawer without lines is not: it comes back with one empty line. *)
Example drawer_without_lines :
  __init__ (__repr__ (mk "LOGBOOK" [])) = mk "LOGBOOK" [""].
Proof. reflexivity. Qed.

End DrawerFacts.

Section HeadingDrawers.

Import Heading.

(** X15.  For a heading with at least one property, none with a newline
    in its line, that has no drawers or a PROPERTIES drawer in front,
    reading [drawers] returns a PROPERTIES drawer with one line per
    property, in the order of the properties, followed by the drawers
    after the first.  The same list is stored in the heading, no other
    heading changes, and reading once more returns the same list. *)
Theorem heading_drawers_from_properties (s : heap) (self : ref) :
  let properties := _properties (s self) in
  let lines := map property_line properties in
  let rest := match _drawers (s self) with
              | Some (_ :: rest) => rest
              | _ => []
              end in
  properties <> [] ->
  forallb one_line lines = true ->
  match _drawers (s self) with
  | Some (d :: _) => Drawer.name d = "PROPERTIES"
  | _ => True
  end ->
  exists s',
    drawers self s = (Ok (Some (Drawer.mk "PROPERTIES" lines :: rest)), s')
    /\ _drawers (s' self) = Some (Drawer.mk "PROPERTIES" lines :: rest)
    /\ _properties (s' self) = properties
    /\ (forall r, r <> self -> s' r = s r)
    /\ fst (drawers self s')
       = Ok (Some (Drawer.mk "PROPERTIES" lines :: rest)).
Proof.
  intros properties lines rest Hp Ho Hd.
  assert (Ep : _properties (s self) = properties) by reflexivity.
  assert (Er : match _drawers (s self) with
               | Some (_ :: rest) => rest
               | _ => []
               end = rest) by reflexivity.
  clearbody rest. clearbody properties.
  destruct properties as [| p ps]; [congruence |].
  assert (U : Drawer.__init__
                (":PROPERTIES:" ++ nl ++ String.concat nl lines ++ nl
                 ++ ":END:")
              = Drawer.mk "PROPERTIES" lines).
  { change (Drawer.__init__
              (":" ++ "PROPERTIES" ++ ":" ++ nl ++ String.concat nl lines
               ++ nl ++ ":END:" ++ "")
            = Drawer.mk "PROPERTIES" lines).
    apply drawer_init_lines; auto. discriminate. }
  assert (G : forall s0, _properties (s0 self) = p :: ps ->
              (match _drawers (s0 self) with
               | Some (d :: r) => Drawer.name d = "PROPERTIES" /\ r = rest
               | _ => rest = []
               end) ->
              drawers self s0
              = (Ok (Some (Drawer.mk "PROPERTIES" lines :: rest)),
                 upd s0 self
                   (with_drawers
                      (Some (Drawer.mk "PROPERTIES" lines :: rest))
                      (s0 self)))).
  { intros s0 P D.
    unfold drawers, _get_properties_string, Heading.properties, mbind,
      read, modify, mret.
    cbv beta iota. rewrite P.
    fold property_line. fold lines. cbn [append] in U. cbn [append].
    rewrite U.
    destruct (_drawers (s0 self)) as [[| d r] |].
    - rewrite ?P. cbv beta iota. rewrite upd_same, D. reflexivity.
    - destruct D as [-> ->]. rewrite String.eqb_refl.
      cbv beta iota. rewrite upd_same. reflexivity.
    - rewrite ?P. cbv beta iota. rewrite upd_same, D. reflexivity. }
  eexists. split; [apply G; [exact Ep |] |].
  - destruct (_drawers (s self)) as [[| d r] |]; auto.
  - split; [now rewrite upd_same |].
    split; [rewrite upd_same; exact Ep |].
    split; [intros r Hr; now apply upd_other |].
    rewrite G; [reflexivity | rewrite upd_same; exact Ep |].
    rewrite upd_same. cbn. auto.
Qed.

Lemma heading_drawers_from_properties_witness :
  exists s',
    drawers 0%nat Examples.filed
    = (Ok (Some [Drawer.mk "PROPERTIES"
                   [":ID:       42"; ":OWNER:       ann"];
                 Drawer.mk "LOGBOOK" ["CLOCK: [2024-01-01 Mon 09:00]"]]),
       s')
    /\ _drawers (s' 0%nat)
       = Some [Drawer.mk "PROPERTIES"
                 [":ID:       42"; ":OWNER:       ann"];
               Drawer.mk "LOGBOOK" ["CLOCK: [2024-01-01 Mon 09:00]"]]
    /\ _properties (s' 0%nat) = [("ID", "42"); ("OWNER", "ann")]
    /\ (forall r, r <> 0%nat -> s' r = Examples.filed r)
    /\ fst (drawers 0%nat s')
       = Ok (Some [Drawer.mk "PROPERTIES"
                     [":ID:       42"; ":OWNER:       ann"];
                   Drawer.mk "LOGBOOK" ["CLOCK: [2024-01-01 Mon 09:00]"]]).
Proof.
  apply (heading_drawers_from_properties Examples.filed 0%nat);
    [discriminate | reflexivity | reflexivity].
Defined.

End HeadingDrawers.

(** ** Heading: children and properties *)

Section ChildrenFacts.

Import Heading.

Lemma index_from_first (before after : list ref) (x : ref) (i : Z) :
  ~ In x before ->
  index_from (before ++ x :: after) x i
  = Ok (i + Z.of_nat (List.length before)).
Proof.
  revert i. induction before as [| y before IH]; intros i H.
  - cbn. rewrite Nat.eqb_refl. f_equal. lia.
  - cbn [app index_from].
    destruct (Nat.eqb_spec y x) as [-> | Hne]; [exfalso; apply H; now left |].
    rewrite IH by (intros C; apply H; now right).
    f_equal. cbn [List.length]. lia.
Qed.

Lemma index_from_missing (l : list ref) (x : ref) (i : Z) :
  ~ In x l -> index_from l x i = Raise ValueError.
Proof.
  revert i. induction l as [| y l IH]; intros i H; [reflexivity |].
  cbn [index_from].
  destruct (Nat.eqb_spec y x) as [-> | Hne]; [exfalso; apply H; now left |].
  apply IH. intros C. apply H. now right.
Qed.

Lemma promote_refused (s : heap) (self : ref) :
  truthy (_children (s self)) = true ->
  promote self s = (Raise TypeError, s).
Proof.
  intros H. unfold promote. erewrite bind_ok by reflexivity. now rewrite H.
Qed.

Lemma dict_get_set (d : list (string * string)) (k v key : string) :
  dict_get (dict_set d k v) key
  = if String.eqb key k then Some v else dict_get d key.
Proof.
  induction d as [| [k' v'] d IH]; cbn.
  - rewrite (String.eqb_sym k key). reflexivity.
  - destruct (String.eqb_spec k' k) as [-> | Hne]; cbn.
    + rewrite (String.eqb_sym k key).
      now destruct (String.eqb key k).
    + destruct (String.eqb_spec k' key) as [-> | Hne'].
      * destruct (String.eqb_spec key k); [congruence | reflexivity].
      * exact IH.
Qed.

Lemma dict_set_keys (d : list (string * string)) (k v : string) :
  exists extra, map fst (dict_set d k v) = (map fst d ++ extra)%list.
Proof.
  induction d as [| [k' v'] d IH]; cbn.
  - now exists [k].
  - destruct (String.eqb k' k); cbn.
    + exists []. now rewrite List.app_nil_r.
    + destruct IH as (extra & ->). now exists extra.
Qed.


(** [add_child] of a node that is not new, at a parent that has the
    sibling marker of the node among its children. *)
Lemma add_child_spliced (s : heap) (parent child marker : ref)
    (before after : list ref) :
  _children (s parent) = Some (before ++ marker :: after)%list ->
  ~ In marker before ->
  _sibling (s child) = Some marker ->
  add_child parent child false s
  = (Ok tt,
     upd s parent
       (with_children (Some (before ++ marker :: child :: after)%list)
          (s parent))).
Proof.
  intros Hc Hb Hs.
  unfold add_child, add_child_sharing. erewrite bind_ok by reflexivity. rewrite Hc.
  destruct (before ++ marker :: after)%list as [| c cs] eqn:E;
    [now destruct before |].
  cbv beta iota.
  erewrite bind_ok by reflexivity. rewrite Hs. rewrite <- E.
  rewrite index_from_first by exact Hb.
  replace (Z.to_nat (0 + Z.of_nat (List.length before) + 1))
    with (List.length (before ++ [marker])%list)
    by (rewrite length_app; cbn; lia).
  replace (before ++ marker :: after)%list
    with ((before ++ [marker]) ++ after)%list
    by (now rewrite <- List.app_assoc).
  rewrite firstn_app, skipn_app, Nat.sub_diag, firstn_all, skipn_all.
  cbn [firstn skipn app]. rewrite List.app_nil_r.
  unfold set_children, modify. rewrite <- List.app_assoc. reflexivity.
Qed.

(** X16.  A heading that is added, not as a new one, to a parent that has
    the sibling marker of the heading among its children lands right
    after the first occurrence of the marker; the other children keep
    their places and no other heading changes. *)
Theorem heading_add_child_after_marker (s : heap) (parent child marker : ref)
    (before after : list ref) :
  _children (s parent) = Some (before ++ marker :: after)%list ->
  ~ In marker before ->
  _sibling (s child) = Some marker ->
  exists s',
    add_child parent child false s = (Ok tt, s')
    /\ _children (s' parent)
       = Some (before ++ marker :: child :: after)%list
    /\ (forall r, r <> parent -> s' r = s r).
Proof.
  intros Hc Hb Hs.
  rewrite (add_child_spliced s parent child marker before after Hc Hb Hs).
  eexists. split; [reflexivity |]. split.
  - now rewrite upd_same.
  - intros r Hr. now apply upd_other.
Qed.

Lemma heading_add_child_after_marker_witness :
  exists s',
    add_child 0%nat 8%nat false Examples.loose = (Ok tt, s')
    /\ _children (s' 0%nat) = Some ([1%nat] ++ 4%nat :: 8%nat :: [5%nat])%list
    /\ (forall r, r <> 0%nat -> s' r = Examples.loose r).
Proof.
  apply (heading_add_child_after_marker Examples.loose 0%nat 8%nat 4%nat
           [1%nat] [5%nat]);
    [reflexivity | cbn; intuition discriminate | reflexivity].
Defined.

(** X17.  When the parent has children and the sibling marker of the
    heading is not among them, [add_child] raises [ValueError] and the
    heap is the one before the call. *)
Theorem heading_add_child_marker_missing (s : heap)
    (parent child marker c : ref) (cs : list ref) :
  _children (s parent) = Some (c :: cs) ->
  _sibling (s child) = Some marker ->
  ~ In marker (c :: cs) ->
  add_child parent child false s = (Raise ValueError, s).
Proof.
  intros Hc Hs Hm.
  unfold add_child, add_child_sharing. erewrite bind_ok by reflexivity. rewrite Hc.
  cbv beta iota. erewrite bind_ok by reflexivity. rewrite Hs.
  now rewrite index_from_missing.
Qed.

Lemma heading_add_child_marker_missing_witness :
  add_child 1%nat 8%nat false Examples.loose
  = (Raise ValueError, Examples.loose).
Proof.
  apply (heading_add_child_marker_missing Examples.loose 1%nat 8%nat 4%nat
           2%nat [3%nat]);
    [reflexivity | reflexivity | cbn; intuition discriminate].
Defined.

Lemma filter_absent (l : list ref) (x : ref) :
  ~ In x l -> filter (fun c => negb (Nat.eqb c x)) l = l.
Proof.
  induction l as [| y l IH]; intros H; [reflexivity |].
  cbn [filter].
  destruct (Nat.eqb_spec y x) as [-> | Hne]; [exfalso; apply H; now left |].
  cbn. rewrite IH; [reflexivity |]. intros C. apply H. now right.
Qed.

Lemma filter_last (l : list ref) (x : ref) :
  ~ In x l -> filter (fun c => negb (Nat.eqb c x)) (l ++ [x]) = l.
Proof.
  intros H. rewrite filter_app, filter_absent by exact H.
  cbn. rewrite Nat.eqb_refl. cbn. apply List.app_nil_r.
Qed.

(** The loop of an append in place: every holder of the list object has
    the new list. *)
Lemma holders_loop (v : option (list ref)) (l : list ref) (s : heap) :
  exists s',
    for_each l (fun holder => set_children holder v) s = (Ok tt, s')
    /\ (forall r, In r l -> s' r = with_children v (s r))
    /\ (forall r, ~ In r l -> s' r = s r).
Proof.
  revert s. induction l as [| x l IH]; intros s.
  - exists s. split; [reflexivity |]. split; [intros r [] | reflexivity].
  - destruct (IH (upd s x (with_children v (s x)))) as (s' & E & I & O).
    exists s'. split; [| split].
    + cbn [for_each]. erewrite bind_ok by reflexivity. exact E.
    + intros r Hr.
      destruct (in_dec Nat.eq_dec r l) as [Hl | Hl].
      * rewrite I by exact Hl. unfold upd.
        destruct (Nat.eqb_spec r x) as [-> |]; reflexivity.
      * rewrite O by exact Hl.
        destruct Hr as [-> | Hr]; [apply upd_same | contradiction].
    + intros r Hr. rewrite O by (intros C; apply Hr; now right).
      apply upd_other. intros ->. apply Hr. now left.
Qed.

(** X18.  Adding a heading as a new child and removing it again leaves
    the parent with the children that were there, in their order; a
    parent that had no children is left with an empty list.  When there
    were children the heading was appended to their list object and
    taken out of a new list, so that every other heading that holds the
    same list object keeps the heading among its children.  No other
    heading changes. *)
Theorem heading_add_then_remove (s : heap) (sharing : list ref)
    (parent child : ref) :
  let children := match _children (s parent) with
                  | Some l => l
                  | None => []
                  end in
  ~ In child children ->
  ~ In parent sharing ->
  (forall r, In r sharing -> _children (s r) = _children (s parent)) ->
  exists s',
    mbind (add_child_sharing sharing parent child true)
          (fun _ => remove_child parent child) s = (Ok tt, s')
    /\ s' parent = with_children (Some children) (s parent)
    /\ (forall r, In r sharing ->
          s' r = if truthy (_children (s parent))
                 then with_children (Some (children ++ [child])%list) (s r)
                 else s r)
    /\ (forall r, r <> parent -> ~ In r sharing -> s' r = s r).
Proof.
  intros children H Hp _.
  assert (A : exists s1,
             add_child_sharing sharing parent child true s = (Ok tt, s1)
             /\ s1 parent
                = with_children (Some (children ++ [child])%list) (s parent)
             /\ (forall r, In r sharing ->
                   s1 r = if truthy (_children (s parent))
                          then with_children
                                 (Some (children ++ [child])%list) (s r)
                          else s r)
             /\ (forall r, r <> parent -> ~ In r sharing -> s1 r = s r)).
  { unfold add_child_sharing. erewrite bind_ok by reflexivity.
    cbv beta iota. subst children.
    destruct (_children (s parent)) as [[| c cs] |].
    - eexists. split; [reflexivity |]. cbn [truthy].
      split; [apply upd_same |].
      split; intros r; intros; apply upd_other; congruence.
    - destruct (holders_loop (Some ((c :: cs) ++ [child])%list)
                  (parent :: sharing) s) as (s1 & E & I & O).
      exists s1. split; [exact E |]. cbn [truthy].
      split; [apply I; now left |].
      split; [intros r Hr; apply I; now right |].
      intros r Hr Hs. apply O. intros [-> | C]; contradiction.
    - eexists. split; [reflexivity |]. cbn [truthy].
      split; [apply upd_same |].
      split; intros r; intros; apply upd_other; congruence. }
  destruct A as (s1 & E1 & P1 & S1 & O1).
  erewrite bind_ok by exact E1.
  unfold remove_child. erewrite bind_ok by reflexivity.
  rewrite P1. cbn [_children with_children].
  assert (E : exists c cs, (children ++ [child])%list = c :: cs)
    by (destruct children; cbn; eauto).
  destruct E as (c & cs & E). rewrite E. cbv beta iota. rewrite <- E.
  rewrite filter_last by exact H.
  eexists. split; [reflexivity |]. split; [| split].
  - rewrite upd_same, P1. reflexivity.
  - intros r Hr. rewrite upd_other by congruence. now apply S1.
  - intros r Hr Hs. rewrite upd_other by exact Hr. now apply O1.
Qed.

Lemma heading_add_then_remove_witness :
  exists s',
    mbind (add_child_sharing [9%nat] 1%nat 8%nat true)
          (fun _ => remove_child 1%nat 8%nat) Examples.shared = (Ok tt, s')
    /\ s' 1%nat = with_children (Some [2; 3]%nat) (Examples.shared 1%nat)
    /\ (forall r, In r [9%nat] ->
          s' r = if truthy (_children (Examples.shared 1%nat))
                 then with_children (Some ([2; 3] ++ [8])%list%nat)
                        (Examples.shared r)
                 else Examples.shared r)
    /\ (forall r, r <> 1%nat -> ~ In r [9%nat] -> s' r = Examples.shared r).
Proof.
  apply (heading_add_then_remove Examples.shared [9%nat] 1%nat 8%nat).
  - cbn. intuition discriminate.
  - cbn. intuition discriminate.
  - intros r [<- | []]. reflexivity.
Defined.

(** X19.  [promote_tree] never gets to promote a subtree: on a node with
    children it raises the [TypeError] of [promote] and changes nothing,
    and on a node without children it does what [promote] does, so that
    in every case it is [promote]. *)
Theorem heading_promote_tree_is_promote (depth : nat) (self : ref)
    (s : heap) :
  promote_tree (S depth) self s = promote self s.
Proof.
  cbn [promote_tree]. erewrite bind_ok by reflexivity.
  destruct (truthy (_children (s self))) eqn:T.
  - pose proof (promote_refused s self T) as R.
    erewrite bind_raise by exact R. now rewrite R.
  - unfold mbind. destruct (promote self s) as [[[] | e] s'] eqn:E.
    + destruct (_children (s self)) as [[| c cs] |]; try reflexivity.
      discriminate T.
    + reflexivity.
Qed.

(** X20.  Assigning a dict to [properties] does not replace the
    properties but adds to them: afterwards each key of the dict has the
    value of the dict, every other key has the value it had, the keys
    that were there keep their places and new keys follow them.  Nothing
    else changes. *)
Theorem heading_set_properties_merges (s : heap) (self : ref)
    (val : list (string * string)) :
  NoDup (map fst val) ->
  exists s' merged,
    set_properties self val s = (Ok tt, s')
    /\ s' self = with_properties merged (s self)
    /\ (forall r, r <> self -> s' r = s r)
    /\ (forall key,
          dict_get merged key
          = match dict_get val key with
            | Some v => Some v
            | None => dict_get (_properties (s self)) key
            end)
    /\ exists added,
         map fst merged = (map fst (_properties (s self)) ++ added)%list.
Proof.
  revert s. induction val as [| [k v] val IH]; intros s N.
  - exists s, (_properties (s self)). cbn.
    repeat apply conj; auto.
    + destruct (s self); reflexivity.
    + exists []. now rewrite List.app_nil_r.
  - cbn [map fst] in N. apply NoDup_cons_iff in N as [Nk N].
    set (s1 := upd s self
                 (with_properties (dict_set (_properties (s self)) k v)
                                  (s self))).
    destruct (IH s1 N) as (s' & merged & E & P & O & G & (added & K)).
    exists s', merged.
    assert (P1 : s1 self = with_properties
                             (dict_set (_properties (s self)) k v) (s self))
      by (subst s1; now rewrite upd_same).
    repeat apply conj.
    + cbn [set_properties for_each]. erewrite bind_ok by reflexivity.
      exact E.
    + rewrite P, P1. reflexivity.
    + intros r Hr. rewrite O by exact Hr. subst s1. now apply upd_other.
    + intros key. rewrite G, P1. cbn [_properties with_properties dict_get fst snd].
      destruct (dict_get val key) eqn:D.
      * destruct (String.eqb_spec k key) as [-> | Hne]; [| reflexivity].
        exfalso. apply Nk. clear - D.
        induction val as [| [k' v'] val IHv]; [discriminate |].
        cbn in *. destruct (String.eqb_spec k' key); auto.
      * rewrite dict_get_set, (String.eqb_sym key k).
        destruct (String.eqb k key); reflexivity.
    + rewrite K, P1. cbn [_properties with_properties].
      destruct (dict_set_keys (_properties (s self)) k v) as (extra & ->).
      exists (extra ++ added)%list. now rewrite List.app_assoc.
Qed.

Lemma heading_set_properties_merges_witness :
  exists s' merged,
    set_properties 0%nat [("OWNER", "bob"); ("DUE", "fri")] Examples.filed
    = (Ok tt, s')
    /\ s' 0%nat = with_properties merged (Examples.filed 0%nat)
    /\ (forall r, r <> 0%nat -> s' r = Examples.filed r)
    /\ (forall key,
          dict_get merged key
          = match dict_get [("OWNER", "bob"); ("DUE", "fri")] key with
            | Some v => Some v
            | None => dict_get (_properties (Examples.filed 0%nat)) key
            end)
    /\ exists added,
         map fst merged
         = (map fst (_properties (Examples.filed 0%nat)) ++ added)%list.
Proof.
  apply (heading_set_properties_merges Examples.filed 0%nat
           [("OWNER", "bob"); ("DUE", "fri")]).
  repeat (constructor; [cbn; intuition discriminate |]); constructor.
Defined.

End ChildrenFacts.

(** ** Heading: what a promotion and a demotion do *)

Section PromoteEffect.

Import Heading.

(** The removal loop of [promote], with the list that it leaves. *)
Lemma remove_loop_exact (self p : ref) (l cs : list ref) (s : heap) :
  self <> p ->
  _sibling (s self) = Some p ->
  _children (s p) = Some cs ->
  exists s',
    for_each l (fun x =>
      sibling <-- read _sibling self ;;
      call sibling (fun r => remove_child r x)) s = (Ok tt, s')
    /\ s' p = with_children
                (Some (fold_left (fun acc x => without x acc) l cs)) (s p)
    /\ (forall r, r <> p -> s' r = s r).
Proof.
  intros Hne. revert s cs. induction l as [| x l IH]; intros s cs Hs Hc.
  - exists s. cbn. repeat split.
    symmetry. now apply with_children_same.
  - destruct (remove_child_spec p x cs s Hc) as (s1 & E1 & P1 & O1).
    destruct (IH s1 (without x cs)) as (s' & E & P & O).
    { rewrite O1 by exact Hne. exact Hs. }
    { rewrite P1. reflexivity. }
    exists s'. split; [| split].
    + cbn [for_each]. erewrite bind_ok; [exact E |].
      erewrite bind_ok by reflexivity. rewrite Hs. exact E1.
    + rewrite P, P1. reflexivity.
    + intros r Hr. rewrite O by exact Hr. now apply O1.
Qed.

Lemma without_absent (l : list ref) (x : ref) :
  ~ In x l -> without x l = l.
Proof. apply filter_absent. Qed.

Lemma without_middle (a b : list ref) (x : ref) :
  ~ In x a -> ~ In x b -> without x (a ++ x :: b) = (a ++ b)%list.
Proof.
  intros Ha Hb. unfold without. rewrite filter_app. cbn [filter].
  rewrite Nat.eqb_refl. cbn [negb].
  now rewrite !filter_absent.
Qed.

(** Taking the elements of [b] one by one out of [a ++ b] leaves [a]. *)
Lemma without_all (a b : list ref) :
  NoDup (a ++ b)%list ->
  fold_left (fun acc x => without x acc) b (a ++ b)%list = a.
Proof.
  revert a. induction b as [| x b IH]; intros a N.
  - cbn. apply List.app_nil_r.
  - cbn [fold_left].
    pose proof (NoDup_remove_2 _ _ _ N) as Nx.
    rewrite without_middle.
    + apply IH. eapply NoDup_remove_1. exact N.
    + intros C. apply Nx, in_or_app. now left.
    + intros C. apply Nx, in_or_app. now right.
Qed.

(** X21.  Take a node without children in a tree: it stands among the
    children of its parent, after [before] and in front of [following],
    and the parent stands among the children of the grandparent; the
    lists have no repetitions and the three nodes and the children are
    apart.  Then [promote] succeeds.  The level of the node is lowered by
    one and not below 1; the node has the grandparent as its parent and
    the former parent as its sibling marker, and stands right after the
    former parent among the children of the grandparent; the nodes that
    followed it are its children and have it as their parent; the former
    parent keeps the children that came before the node. *)
Theorem heading_promote_effect (s : heap) (self p g : ref)
    (before following gbefore gafter : list ref) :
  truthy (_children (s self)) = false ->
  _parent (s self) = Some p ->
  _parent (s p) = Some g ->
  _children (s p) = Some (before ++ self :: following)%list ->
  NoDup (before ++ self :: following)%list ->
  ~ In p (before ++ self :: following)%list ->
  ~ In g (before ++ self :: following)%list ->
  g <> p ->
  _children (s g) = Some (gbefore ++ p :: gafter)%list ->
  ~ In p gbefore ->
  exists s',
    promote self s = (Ok tt, s')
    /\ level s' self = Z.max (level s self - 1) 1
    /\ _parent (s' self) = Some g
    /\ _sibling (s' self) = Some p
    /\ _children (s' self) = Some following
    /\ (forall x, In x following -> _parent (s' x) = Some self)
    /\ _children (s' p) = Some before
    /\ _children (s' g) = Some (gbefore ++ p :: self :: gafter)%list.
Proof.
  intros Hc Hp Hg Hs Hdup Hnp Hng Hgp Hgc Hpb.
  set (siblings := (before ++ self :: following)%list) in *.
  assert (Hsb : ~ In self before).
  { intros C. apply (NoDup_remove_2 _ _ _ Hdup), in_or_app. now left. }
  assert (Hn1 : ~ In self following).
  { intros C. apply (NoDup_remove_2 _ _ _ Hdup), in_or_app. now right. }
  assert (Hin : forall x, In x following -> In x siblings).
  { intros x Hx. apply in_or_app. right. now right. }
  assert (Hn2 : ~ In p following) by (intros C; apply Hnp; auto).
  assert (Hn3 : ~ In g following) by (intros C; apply Hng; auto).
  assert (Hne : self <> p).
  { intros ->. apply Hnp, in_or_app. right. now left. }
  assert (Hgs : g <> self).
  { intros ->. apply Hng, in_or_app. right. now left. }
  assert (Hi : index_from siblings self 0
               = Ok (0 + Z.of_nat (List.length before)))
    by (apply index_from_first; exact Hsb).
  assert (Hf : skipn (Z.to_nat (0 + Z.of_nat (List.length before) + 1))
                     siblings = following).
  { replace (Z.to_nat (0 + Z.of_nat (List.length before) + 1))
      with (List.length (before ++ [self])%list)
      by (rewrite length_app; cbn; lia).
    subst siblings.
    replace (before ++ self :: following)%list
      with ((before ++ [self]) ++ following)%list
      by (now rewrite <- List.app_assoc).
    rewrite skipn_app, Nat.sub_diag, skipn_all. reflexivity. }
  unfold promote.
  erewrite bind_ok by reflexivity. rewrite Hc.
  erewrite bind_ok by reflexivity.
  set (s1 := upd s self _).
  erewrite bind_ok by reflexivity.
  erewrite bind_ok by reflexivity.
  set (s2 := upd s1 self _).
  assert (S2self : s2 self
                   = with_sibling (Some p)
                       (with_headline
                          (Headline.with_level (Z.max (level s self - 1) 1)
                             (_headline (s self)))
                          (s self))).
  { subst s2 s1. rewrite !upd_same. cbn. rewrite Hp. reflexivity. }
  assert (S2o : forall r, r <> self -> s2 r = s r).
  { intros r Hr. subst s2 s1. now rewrite !upd_other. }
  clearbody s2. clear s1.
  erewrite bind_ok by reflexivity.
  rewrite S2self. cbn [_sibling with_sibling].
  erewrite bind_ok by reflexivity.
  rewrite (S2o p) by auto. rewrite Hs.
  erewrite bind_ok by (unfold mlift; cbn [index]; rewrite Hi; reflexivity).
  rewrite Hf.
  destruct (adopt_block self following s2) as (s3 & E3 & O3 & I3).
  erewrite bind_ok by exact E3.
  erewrite bind_ok by reflexivity.
  set (s4 := upd s3 self _).
  assert (S4self : s4 self = with_children (Some following) (s2 self)).
  { subst s4. rewrite upd_same, (O3 self) by exact Hn1. reflexivity. }
  assert (S4o : forall r, r <> self -> s4 r = s3 r).
  { intros r Hr. subst s4. now rewrite upd_other. }
  clearbody s4.
  erewrite bind_ok by reflexivity.
  rewrite S4self, S2self. cbn [_sibling with_sibling with_children].
  cbn [call].
  assert (C4 : _children (s4 p) = Some siblings).
  { rewrite S4o, O3, S2o by auto. exact Hs. }
  destruct (remove_child_spec p self siblings s4 C4) as (s5 & E5 & P5 & O5).
  erewrite bind_ok by exact E5.
  fold (without self siblings) in P5.
  destruct (remove_loop_exact self p following (without self siblings) s5)
    as (s6 & E6 & P6 & O6).
  { exact Hne. }
  { rewrite O5, S4self, S2self by exact Hne. reflexivity. }
  { rewrite P5. reflexivity. }
  erewrite bind_ok by exact E6.
  assert (L : fold_left (fun acc x => without x acc) following
                        (without self siblings) = before).
  { subst siblings. rewrite without_middle by assumption.
    apply without_all. eapply NoDup_remove_1. exact Hdup. }
  rewrite L in P6.
  assert (S6self : s6 self = s4 self).
  { rewrite O6, O5 by exact Hne. reflexivity. }
  assert (S6p : _parent (s6 p) = Some g).
  { rewrite P6, P5. cbn. rewrite S4o, O3, S2o by auto. exact Hg. }
  erewrite bind_ok by reflexivity.
  rewrite S6self, S4self, S2self.
  cbn [_parent with_children with_sibling with_headline].
  rewrite Hp. cbn [attr].
  erewrite bind_ok by reflexivity. rewrite S6p.
  erewrite bind_ok by reflexivity.
  set (s7 := upd s6 self _).
  erewrite bind_ok by reflexivity.
  assert (S7self : s7 self = with_parent (Some g) (s4 self)).
  { subst s7. rewrite upd_same, S6self. reflexivity. }
  assert (S7o : forall r, r <> self -> s7 r = s6 r).
  { intros r Hr. subst s7. now rewrite upd_other. }
  clearbody s7.
  rewrite S7self. cbn [_parent with_parent call].
  assert (E8 := add_child_spliced s7 g self p gbefore gafter).
  set (s8 := upd s7 g _) in E8.
  assert (C8 : _children (s8 g)
               = Some (gbefore ++ p :: self :: gafter)%list)
    by (subst s8; now rewrite upd_same).
  assert (O8 : forall r, r <> g -> s8 r = s7 r)
    by (intros r Hr; subst s8; now apply upd_other).
  clearbody s8.
  exists s8. split.
  { apply E8.
    - rewrite S7o, O6, O5, S4o, O3, S2o by auto. exact Hgc.
    - exact Hpb.
    - rewrite S7self, S4self, S2self. reflexivity. }
  assert (S8self : s8 self = s7 self) by (apply O8; auto).
  unfold level. rewrite S8self, S7self, S4self, S2self. cbn.
  repeat apply conj; try reflexivity.
  - intros x Hx.
    assert (x <> self) by (intros ->; contradiction).
    assert (x <> p) by (intros ->; contradiction).
    assert (x <> g) by (intros ->; contradiction).
    rewrite O8, S7o, O6, O5, S4o by assumption. now apply I3.
  - rewrite O8, S7o, P6 by auto. reflexivity.
  - exact C8.
Qed.

Lemma heading_promote_effect_witness :
  exists s',
    promote 6%nat Examples.outline = (Ok tt, s')
    /\ level s' 6%nat = Z.max (level Examples.outline 6%nat - 1) 1
    /\ _parent (s' 6%nat) = Some 0%nat
    /\ _sibling (s' 6%nat) = Some 5%nat
    /\ _children (s' 6%nat) = Some [7%nat]
    /\ (forall x, In x [7%nat] -> _parent (s' x) = Some 6%nat)
    /\ _children (s' 5%nat) = Some []
    /\ _children (s' 0%nat) = Some ([1; 4]%nat ++ 5%nat :: 6%nat :: [])%list.
Proof.
  apply (heading_promote_effect Examples.outline 6%nat 5%nat 0%nat
           [] [7%nat] [1; 4]%nat []);
    try reflexivity; try discriminate;
    try (cbn; intuition discriminate).
  repeat (constructor; [cbn; intuition discriminate |]); constructor.
Defined.

End PromoteEffect.

Section DemoteEffect.

Import Heading.

Lemma getitem_nth {A} (l : list A) (n : nat) :
  getitem l (Z.of_nat n)
  = match nth_error l n with Some a => Ok a | None => Raise IndexError end.
Proof.
  unfold getitem. cbv zeta.
  assert (E0 : (Z.of_nat n <? 0) = false) by (apply Z.ltb_ge; lia).
  rewrite E0. cbv iota. rewrite E0, Nat2Z.id. cbn [orb].
  destruct (Z.leb_spec (Z.of_nat (List.length l)) (Z.of_nat n)) as [H | H];
    [| reflexivity].
  assert (E : nth_error l n = None) by (apply nth_error_None; lia).
  now rewrite E.
Qed.

Lemma getitem_next (before after : list ref) (x : ref) :
  getitem (before ++ x :: after)%list (0 + Z.of_nat (List.length before) + 1)
  = match after with next :: _ => Ok next | [] => Raise IndexError end.
Proof.
  replace (0 + Z.of_nat (List.length before) + 1)
    with (Z.of_nat (List.length (before ++ [x])%list))
    by (rewrite length_app; cbn; lia).
  rewrite getitem_nth.
  replace (before ++ x :: after)%list with ((before ++ [x]) ++ after)%list
    by (now rewrite <- List.app_assoc).
  rewrite nth_error_app2, Nat.sub_diag by lia.
  now destruct after.
Qed.

Lemma getitem_last {A} (l : list A) (x : A) :
  getitem (l ++ [x])%list (-1) = Ok x.
Proof.
  unfold getitem. cbv zeta. rewrite length_app. cbn [List.length].
  change (-1 <? 0) with true. cbv iota.
  replace (-1 + Z.of_nat (List.length l + 1)) with (Z.of_nat (List.length l))
    by lia.
  replace (Z.of_nat (List.length l) <? 0) with false
    by (symmetry; apply Z.ltb_ge; lia).
  replace (Z.of_nat (List.length l + 1) <=? Z.of_nat (List.length l))
    with false by (symmetry; apply Z.leb_gt; lia).
  cbn [orb]. rewrite Nat2Z.id, nth_error_app2, Nat.sub_diag by lia.
  reflexivity.
Qed.


(** X22.  Take a node without children that has a sibling marker and
    stands once among the children of its parent; the marked sibling is
    neither the node nor the parent, and its children have no
    repetitions.  Then [demote] succeeds.  The level of the node is
    raised by one; the node has the sibling as its parent and stands last
    among the children of the sibling; its sibling marker is the child
    that was last there, or [None]; its children are [None]; the former
    parent keeps its other children in their order; and the node that
    followed takes over the sibling marker. *)
Theorem heading_demote_leaf (s : heap) (self p sib : ref)
    (before after : list ref) :
  let kids := match _children (s sib) with Some l => l | None => [] end in
  truthy (_children (s self)) = false ->
  _sibling (s self) = Some sib ->
  _parent (s self) = Some p ->
  _children (s p) = Some (before ++ self :: after)%list ->
  ~ In self before ->
  ~ In self after ->
  self <> sib ->
  sib <> p ->
  NoDup kids ->
  exists s',
    demote self s = (Ok tt, s')
    /\ level s' self = level s self + 1
    /\ _parent (s' self) = Some sib
    /\ _sibling (s' self) = hd_error (rev kids)
    /\ _children (s' self) = None
    /\ _children (s' sib) = Some (kids ++ [self])%list
    /\ _children (s' p) = Some (before ++ after)%list
    /\ match after with
       | next :: _ => _sibling (s' next) = Some sib
       | [] => True
       end.
Proof.
  intros kids Hc Hsib Hp Hpc Hb Ha Hss Hsp Hdup.
  assert (Ek : kids = match _children (s sib) with
                      | Some l => l
                      | None => []
                      end) by reflexivity.
  clearbody kids.
  assert (Hself : self <> p).
  { intros ->. rewrite Hpc in Hc. destruct before; discriminate. }
  unfold demote.
  erewrite bind_ok by reflexivity. rewrite Hsib.
  erewrite bind_ok by reflexivity.
  set (s0 := upd s self _).
  assert (L0 : level s0 self = level s self + 1).
  { subst s0. unfold level. rewrite upd_same. reflexivity. }
  assert (C0 : forall x, _children (s0 x) = _children (s x)).
  { intros x. subst s0. unfold upd.
    now destruct (Nat.eqb_spec x self) as [-> |]. }
  assert (P0 : forall x, _parent (s0 x) = _parent (s x)).
  { intros x. subst s0. unfold upd.
    now destruct (Nat.eqb_spec x self) as [-> |]. }
  assert (S0 : forall x, _sibling (s0 x) = _sibling (s x)).
  { intros x. subst s0. unfold upd.
    now destruct (Nat.eqb_spec x self) as [-> |]. }
  clearbody s0.
  erewrite bind_ok by reflexivity. rewrite P0, Hp.
  erewrite bind_ok by reflexivity. rewrite C0, Hpc.
  erewrite bind_ok
    by (unfold mlift; cbn [index]; rewrite index_from_first by exact Hb;
        reflexivity).
  rewrite getitem_next.
  (* the node that follows *)
  match goal with
  | |- exists s', mbind ?m _ _ = _ /\ _ =>
      assert (N : exists s1,
                 m s0 = (Ok tt, s1)
                 /\ (forall x, _children (s1 x) = _children (s0 x))
                 /\ (forall x, _parent (s1 x) = _parent (s0 x))
                 /\ _sibling (s1 self) = _sibling (s0 self)
                 /\ level s1 self = level s0 self
                 /\ match after with
                    | next :: _ => _sibling (s1 next) = Some sib
                    | [] => True
                    end)
  end.
  { destruct after as [| next after'].
    - exists s0. repeat apply conj; auto.
    - assert (Hn : self <> next) by (intros ->; apply Ha; now left).
      exists (upd s0 next (with_sibling (_sibling (s0 self)) (s0 next))).
      repeat apply conj.
      + reflexivity.
      + intros x. apply children_upd_sibling.
      + intros x. apply parent_upd_sibling.
      + now rewrite upd_other.
      + unfold level. now rewrite upd_other.
      + rewrite upd_same. cbn. rewrite S0. exact Hsib. }
  destruct N as (s1 & E1 & C1 & P1 & S1 & L1 & N1).
  erewrite bind_ok by exact E1.
  erewrite bind_ok by reflexivity. rewrite P1, P0, Hp. cbn [call].
  destruct (remove_child_spec p self (before ++ self :: after)%list s1)
    as (s2 & E2 & X2 & O2).
  { rewrite C1, C0. exact Hpc. }
  erewrite bind_ok by exact E2.
  assert (X2' : s2 p = with_children (Some (before ++ after)%list) (s1 p)).
  { rewrite X2. do 2 f_equal. exact (without_middle before after self Hb Ha). }
  clear X2.
  erewrite bind_ok by reflexivity.
  rewrite (O2 self), S1, S0, Hsib by exact Hself.
  erewrite bind_ok by reflexivity.
  set (s3 := upd s2 self (with_parent (Some sib) (s2 self))).
  assert (P3 : _parent (s3 self) = Some sib)
    by (subst s3; now rewrite upd_same).
  assert (C3 : _children (s3 sib) = _children (s sib)).
  { subst s3. rewrite children_upd_parent, O2, C1, C0 by exact Hsp.
    reflexivity. }
  erewrite bind_ok by reflexivity. rewrite P3.
  erewrite bind_ok by reflexivity. rewrite C3.
  set (s4 := upd s3 self (with_sibling (hd_error (rev kids)) (s3 self))).
  (* the sibling marker *)
  match goal with
  | |- exists s', mbind ?m _ _ = _ /\ _ =>
      assert (A : m s3 = (Ok tt, s4))
  end.
  { remember (_children (s sib)) as oc eqn:Eoc.
    destruct oc as [[| c cs] |]; subst kids; try reflexivity.
    destruct (exists_last (l := c :: cs)) as (front & l & E);
      [discriminate |].
    subst s4. rewrite E. erewrite bind_ok
      by (unfold mlift; rewrite getitem_last; reflexivity).
    rewrite rev_app_distr. reflexivity. }
  erewrite bind_ok by exact A.
  assert (P4 : _parent (s4 self) = Some sib)
    by (subst s4; now rewrite parent_upd_sibling).
  assert (C4 : _children (s4 sib) = _children (s sib))
    by (subst s4; now rewrite children_upd_sibling).
  assert (S4 : _sibling (s4 self) = hd_error (rev kids))
    by (subst s4; now rewrite upd_same).
  erewrite bind_ok by reflexivity. rewrite P4. cbn [call].
  set (s5 := upd s4 sib (with_children (Some (kids ++ [self])%list)
                           (s4 sib))).
  assert (B : add_child sib self false s4 = (Ok tt, s5)).
  { remember (_children (s sib)) as oc eqn:Eoc.
    destruct oc as [[| c cs] |]; subst kids.
    - unfold add_child, add_child_sharing. erewrite bind_ok by reflexivity.
      rewrite C4. reflexivity.
    - destruct (exists_last (l := c :: cs)) as (front & l & E);
        [discriminate |].
      subst s5. rewrite E in *.
      rewrite (add_child_spliced s4 sib self l front []).
      + now rewrite <- List.app_assoc.
      + exact C4.
      + intros C. apply (NoDup_remove_2 _ _ _ Hdup).
        now rewrite List.app_nil_r.
      + rewrite S4, rev_app_distr. reflexivity.
    - unfold add_child, add_child_sharing. erewrite bind_ok by reflexivity.
      rewrite C4. reflexivity. }
  erewrite bind_ok by exact B.
  assert (C5 : _children (s5 self) = _children (s self)).
  { subst s5 s4 s3.
    rewrite upd_other, children_upd_sibling, children_upd_parent,
      O2, C1, C0 by auto.
    reflexivity. }
  erewrite bind_ok by reflexivity. rewrite C5.
  assert (T : forall (oc : option (list ref)) k1 k2,
             truthy oc = false ->
             match oc with
             | Some (first :: rest) => k1 first rest
             | _ => k2
             end = (k2 : method heap unit)).
  { intros [[| c cs] |] k1 k2 H; (discriminate || reflexivity). }
  rewrite (T _ _ _ Hc).
  erewrite bind_ok by reflexivity.
  eexists. split; [reflexivity |].
  assert (O5 : forall r, r <> sib -> s5 r = s4 r)
    by (intros r Hr; subst s5; now apply upd_other).
  assert (O4 : forall r, r <> self -> s4 r = s3 r)
    by (intros r Hr; subst s4; now apply upd_other).
  assert (O3 : forall r, r <> self -> s3 r = s2 r)
    by (intros r Hr; subst s3; now apply upd_other).
  repeat apply conj.
  - unfold level in *. rewrite upd_same. cbn.
    rewrite O5 by exact Hss. subst s4. rewrite upd_same. cbn.
    subst s3. rewrite upd_same. cbn.
    rewrite O2, L1 by exact Hself. exact L0.
  - rewrite parent_upd_children, O5 by exact Hss. exact P4.
  - rewrite sibling_upd_children, O5 by exact Hss. exact S4.
  - now rewrite upd_same.
  - rewrite upd_other by auto. subst s5. now rewrite upd_same.
  - rewrite upd_other, O5, O4, O3, X2' by auto. reflexivity.
  - destruct after as [| next after']; [exact I |].
    assert (Hn : next <> self) by (intros ->; apply Ha; now left).
    rewrite sibling_upd_children. subst s5.
    rewrite sibling_upd_children, O4 by exact Hn.
    subst s3. rewrite sibling_upd_parent.
    destruct (Nat.eq_dec next p) as [-> | Hnp].
    + rewrite X2'. exact N1.
    + rewrite O2 by exact Hnp. exact N1.
Qed.

Lemma heading_demote_leaf_witness :
  exists s',
    demote 4%nat Examples.outline = (Ok tt, s')
    /\ level s' 4%nat = level Examples.outline 4%nat + 1
    /\ _parent (s' 4%nat) = Some 1%nat
    /\ _sibling (s' 4%nat) = hd_error (rev [2; 3]%nat)
    /\ _children (s' 4%nat) = None
    /\ _children (s' 1%nat) = Some ([2; 3]%nat ++ [4%nat])%list
    /\ _children (s' 0%nat) = Some ([1%nat] ++ [5%nat])%list
    /\ _sibling (s' 5%nat) = Some 1%nat.
Proof.
  apply (heading_demote_leaf Examples.outline 4%nat 0%nat 1%nat
           [1%nat] [5%nat]);
    try reflexivity; try discriminate;
    try (cbn; intuition discriminate).
  repeat (constructor; [cbn; intuition discriminate |]); constructor.
Defined.

End DemoteEffect.
